(** * Context search engine: tokenizer, base scorer and context re-ranker

    A shallow embedding of [search_engine.py] and the proofs of its
    specification.

    Modelling decisions.
    - A Python [str] is a sequence of Unicode code points: [list N].
      String literals of the source are written [utf8 "..."], the code
      points of the UTF-8 text between the quotes.
    - [str.lower] is a built-in of the language, not code of the program:
      it is a parameter [lower] of the development.  Facts about it that a
      proof needs are stated as hypotheses of that theorem; [simple_lower]
      (case mapping of Basic Latin, Latin-1 and Cyrillic letters) is an
      instance that satisfies them and is used to run examples.
    - Scores are Python floats used as small counts and products of short
      decimal constants.  Which multipliers a score is made of is proved
      on exact rationals [Q]: the constants [1.5], [1.3], [0.9], [0.5] are
      the rationals written that way, and rounding, infinities and NaN
      are outside that model.  The order of the results is another
      matter: two products that are equal as rationals can differ in
      their last bit as floats, and a NaN weight is compared with nothing.
      Ranking is therefore proved on a second embedding of the engines,
      [Binary64], where a score is a binary64 float of the kernel and the
      additions, multiplications and comparisons are those of IEEE 754.
    - A [dict] with string keys is a [gmap str _].
    - [list.sort(key=..., reverse=True)] is a stable sort in descending
      key order: [sort_reverse], an insertion sort.
    - The engines are modelled twice: as functions on values ([search],
      [search_with_context]), on which the scoring properties are
      proved, and as computations on a store of mutable objects
      ([search_m], [search_with_context_m]), on which the absence of
      writes to the caller's objects is proved, together with the
      agreement of the two models. *)

From Stdlib Require Import QArith Lqa List Permutation Sorted Lia String Ascii.
From Stdlib Require Floats.
From stdpp Require Import gmap list fin_maps.

Open Scope N_scope.

(** A decimal constant that is not a binary64 value denotes the nearest
    one, as it does in Python. *)
Set Warnings "-inexact-float".

(** ** Strings *)

Definition char := N.
Definition str := list N.

Definition space : char := 32.

(** Code points of a UTF-8 byte sequence (well-formed input assumed; a
    truncated sequence is dropped). *)
Fixpoint utf8_points (bs : list N) : str :=
  match bs with
  | [] => []
  | b0 :: r0 =>
    if b0 <? 128 then b0 :: utf8_points r0
    else match r0 with
      | [] => []
      | b1 :: r1 =>
        if b0 <? 224 then ((b0 - 192) * 64 + (b1 - 128)) :: utf8_points r1
        else match r1 with
          | [] => []
          | b2 :: r2 =>
            if b0 <? 240
            then ((b0 - 224) * 4096 + (b1 - 128) * 64 + (b2 - 128))
                   :: utf8_points r2
            else match r2 with
              | [] => []
              | b3 :: r3 =>
                ((b0 - 240) * 262144 + (b1 - 128) * 4096
                 + (b2 - 128) * 64 + (b3 - 128)) :: utf8_points r3
              end
          end
      end
  end.

Definition utf8 (s : string) : str :=
  utf8_points (map (fun b => N_of_ascii b) (list_ascii_of_string s)).

(** [sub in text] on strings: [sub] occurs as a contiguous run of [text]. *)
Fixpoint starts_with (text sub : str) : bool :=
  match sub, text with
  | [], _ => true
  | _ :: _, [] => false
  | c :: sub', d :: text' => (c =? d) && starts_with text' sub'
  end.

Fixpoint contains (text sub : str) : bool :=
  starts_with text sub ||
  match text with
  | [] => false
  | _ :: text' => contains text' sub
  end.

(** [text.replace(old, new)] for one-character [old] and [new]. *)
Definition replace (old new : char) (text : str) : str :=
  map (fun c => if c =? old then new else c) text.

(** [text.split(sep)] for a one-character [sep]: the fragments between
    the occurrences of [sep], empty ones included. *)
Fixpoint split (sep : char) (text : str) : list str :=
  match text with
  | [] => [[]]
  | c :: rest =>
    if c =? sep then [] :: split sep rest
    else match split sep rest with
      | [] => [[c]]
      | w :: ws => (c :: w) :: ws
      end
  end.

(** [sep.join(parts)]. *)
Fixpoint join (sep : str) (parts : list str) : str :=
  match parts with
  | [] => []
  | [p] => p
  | p :: ps => p ++ sep ++ join sep ps
  end.

(** Truth value of a string: non-empty. *)
Definition truthy (t : str) : bool :=
  match t with [] => false | _ :: _ => true end.

(** ** Tokenizer *)

(** The characters of the string literal [separators], in its order:
    comma, full stop, semicolon, colon, exclamation mark, question mark,
    round, square and curly brackets, the double quote (34), the
    apostrophe (39), the angle quotation marks U+00AB and U+00BB, line
    feed, carriage return, tab. *)
Definition separators : str :=
  [44; 46; 59; 58; 33; 63; 40; 41; 91; 93; 123; 125; 34; 39; 171; 187;
   10; 13; 9].

(** ** Scores and sorting *)

(** [x < y] on scores. *)
Definition Qltb (x y : Q) : bool :=
  (Qnum x * QDen y <? Qnum y * QDen x)%Z.

(** [l.sort(key=key, reverse=True)]: stable, descending.  An element stays
    in front of the later elements whose key is not greater than its own. *)
Fixpoint insert_reverse {A} (key : A -> Q) (x : A) (l : list A) : list A :=
  match l with
  | [] => [x]
  | y :: l' =>
    if Qltb (key x) (key y) then y :: insert_reverse key x l'
    else x :: y :: l'
  end.

Definition sort_reverse {A} (key : A -> Q) (l : list A) : list A :=
  foldr (insert_reverse key) [] l.

(** ** Data model *)

(** [Document.id] is [doc_id] here and [UserContext.location] is
    [ctx_location]: a projection name can be declared once. *)
Record Document := {
  doc_id : Z;
  title : str;
  content : str;
  location : str;
  category : str;
  time_tag : str
}.

Record UserContext := {
  query_history : list str;
  ctx_location : str;
  time_segment : str;
  preferences : gmap str Q
}.

(** The dictionaries of the result lists. *)
Record BaseResult := {
  doc : Document;
  base_score : Q
}.

Record ContextInfo := {
  matched_location : bool;
  info_time_segment : str;
  doc_time_tag : str;
  category_weight : Q
}.

Record AdaptedResult := {
  a_doc : Document;
  a_base_score : Q;
  final_score : Q;
  context_info : ContextInfo
}.

(** [BasicSearchEngine]; [ContextSearchEngine] inherits from it and adds
    no field. *)
Record BasicSearchEngine := {
  documents : list Document
}.

Definition ContextSearchEngine := BasicSearchEngine.

Definition food : str := utf8 "food".
Definition news : str := utf8 "news".
Definition education : str := utf8 "education".
Definition sport : str := utf8 "sport".
Definition any : str := utf8 "any".

(** ** Document loading *)

(** One element of the loaded JSON array: an object in which each field
    of the record shape is present or absent. *)
Record RawRecord := {
  raw_id : option Z;
  raw_title : option str;
  raw_content : option str;
  raw_location : option str;
  raw_category : option str;
  raw_time_tag : option str
}.

(** The exception of a failed subscript [d[key]]. *)
Inductive error := KeyError (key : str).

Definition result (A : Type) : Type := A + error.

Definition ok {A} (a : A) : result A := inl a.
Definition raise {A} (e : error) : result A := inr e.

Definition bind {A B} (m : result A) (k : A -> result B) : result B :=
  match m with
  | inl a => k a
  | inr e => inr e
  end.

Notation "'try' x <- m 'in' k" := (bind m (fun x => k))
  (at level 10, x name, m at level 100, k at level 200,
   format "'try'  x  <-  m  'in' '//' k").

(** [d[key]] *)
Definition subscript {A} (key : string) (field : option A) : result A :=
  match field with
  | Some v => ok v
  | None => raise (KeyError (utf8 key))
  end.

(** The [Document(...)] call of the loop body: keyword arguments are
    evaluated from left to right. *)
Definition load_document (d : RawRecord) : result Document :=
  try id_ <- subscript "id" (raw_id d) in
  try title_ <- subscript "title" (raw_title d) in
  try content_ <- subscript "content" (raw_content d) in
  try location_ <- subscript "location" (raw_location d) in
  try category_ <- subscript "category" (raw_category d) in
  ok {| doc_id := id_; title := title_; content := content_;
        location := location_; category := category_;
        time_tag := default any (raw_time_tag d) |}.

(** [load_documents] after [json.load]: [raw] is the decoded array. *)
Definition load_documents (raw : list RawRecord) : result (list Document) :=
  fold_left (fun acc d =>
               try docs <- acc in
               try document <- load_document d in
               ok (docs ++ [document]))
            raw (ok []).

(** ** The engines *)

Section Engine.

Variable lower : str -> str.

Definition tokenize (text : str) : list str :=
  let text := lower text in
  let text := fold_left (fun text s => replace s space text) separators text in
  filter (fun t => truthy t = true) (split space text).

(** [UserContext.add_query] *)
Definition add_query (self : UserContext) (query : str) : UserContext :=
  {| query_history := query_history self ++ [lower query];
     ctx_location := ctx_location self;
     time_segment := time_segment self;
     preferences := preferences self |}.

(** The inner loop of [BasicSearchEngine.search]. *)
Definition score_tokens (text : str) (query_tokens : list str) : Q :=
  fold_left (fun score qt => if contains text qt then (score + 1)%Q else score)
            query_tokens 0%Q.

Definition search (self : BasicSearchEngine) (query : str) : list BaseResult :=
  let query_tokens := tokenize query in
  let results :=
    fold_left (fun results doc_ =>
                 let text := lower (title doc_ ++ [space] ++ content doc_) in
                 let score := score_tokens text query_tokens in
                 if Qltb 0 score
                 then results ++ [{| doc := doc_; base_score := score |}]
                 else results)
              (documents self) [] in
  sort_reverse base_score results.

(** [prefs[key] += 1.0]; the key is present wherever this is used
    ([history_counts_dom]). *)
Definition increment (key : str) (prefs : gmap str Q) : gmap str Q :=
  alter (fun v => (v + 1)%Q) key prefs.

(** The first loop of [build_history_preferences]: one history query. *)
Definition count_query (prefs : gmap str Q) (q : str) : gmap str Q :=
  let prefs :=
    if contains q (utf8 "кафе") || contains q (utf8 "ресторан")
       || contains q (utf8 "їжа")
    then increment food prefs else prefs in
  let prefs :=
    if contains q (utf8 "новини") || contains q (utf8 "news")
    then increment news prefs else prefs in
  let prefs :=
    if contains q (utf8 "курс") || contains q (utf8 "навчання")
       || contains q (utf8 "python")
    then increment education prefs else prefs in
  let prefs :=
    if contains q (utf8 "спорт") || contains q (utf8 "фітнес")
       || contains q (utf8 "басейн")
    then increment sport prefs else prefs in
  prefs.

Definition history_counts (context : UserContext) : gmap str Q :=
  fold_left count_query (query_history context)
            (list_to_map (map (fun cat => (cat, 0%Q))
                              [food; news; education; sport])).

(** The second loop rewrites every value in place. *)
Definition build_history_preferences (self : ContextSearchEngine)
    (context : UserContext) : gmap str Q :=
  (fun v => if Qltb 0 v then (1 + v * 0.5)%Q else 1%Q)
    <$> history_counts context.

(** [combined_prefs] after the merge loop. *)
Definition combine_preferences (history_prefs explicit : gmap str Q)
    : gmap str Q :=
  map_fold (fun cat w combined_prefs =>
              <[cat := (default 1%Q (combined_prefs !! cat) * w)%Q]>
                combined_prefs)
           history_prefs explicit.

(** The body of the re-ranking loop: one base result.  The products are
    exact here; [Binary64.adapt] rounds them as the program does. *)
Definition adapt (context : UserContext) (combined_prefs : gmap str Q)
    (item : BaseResult) : AdaptedResult :=
  let doc_ := doc item in
  let base_score_ := base_score item in
  let score := base_score_ in
  let score :=
    if decide (lower (location doc_) = lower (ctx_location context))
    then (score * 1.5)%Q else score in
  let score :=
    if decide (time_tag doc_ = time_segment context) then (score * 1.3)%Q
    else if decide (time_tag doc_ = any) then (score * 1.0)%Q
    else (score * 0.9)%Q in
  let cat_weight := default 1%Q (combined_prefs !! category doc_) in
  let score := (score * cat_weight)%Q in
  {| a_doc := doc_;
     a_base_score := base_score_;
     final_score := score;
     context_info :=
       {| matched_location :=
            bool_decide (lower (location doc_) = lower (ctx_location context));
          info_time_segment := time_segment context;
          doc_time_tag := time_tag doc_;
          category_weight := cat_weight |} |}.

Definition search_with_context (self : ContextSearchEngine) (query : str)
    (context : UserContext) : list AdaptedResult :=
  let base_results := search self query in
  match base_results with
  | [] => []
  | _ :: _ =>
    let history_prefs := build_history_preferences self context in
    let combined_prefs :=
      combine_preferences history_prefs (preferences context) in
    let adapted_results :=
      fold_left (fun adapted_results item =>
                   adapted_results ++ [adapt context combined_prefs item])
                base_results [] in
    sort_reverse final_score adapted_results
  end.

End Engine.

(** ** The objects behind the values

    The engine, the context, the lists and the dictionaries are mutable
    objects that the caller shares with the engine.  This second model of
    [search] and [search_with_context] keeps them in a store: every read
    of an attribute, of a list or of a dictionary is a read of the store,
    every [append], [sort] and item assignment is a write, every list or
    dictionary display is an allocation.  Strings and numbers are
    immutable values. *)

Abbreviation loc := nat (only parsing).

(** A [UserContext] instance: two attributes hold references. *)
Record ContextObject := {
  query_history_ref : loc;
  location_value : str;
  time_segment_value : str;
  preferences_ref : loc
}.

(** The dictionaries of the result lists hold a reference to their
    [Document]. *)
Record BaseRef := {
  doc_ref : loc;
  ref_base_score : Q
}.

Record AdaptedRef := {
  a_doc_ref : loc;
  ref_a_base_score : Q;
  ref_final_score : Q;
  ref_context_info : ContextInfo
}.

Inductive object :=
| ODocument (d : Document)
| ODocuments (items : list loc)
| OHistory (items : list str)
| OPreferences (entries : gmap str Q)
| OContext (c : ContextObject)
| OEngine (documents_ref : loc)
| OBaseResults (items : list BaseRef)
| OAdaptedResults (items : list AdaptedRef).

Abbreviation heap := (gmap nat object) (only parsing).

(** Computations on the store; [None] is a failed read. *)
Definition M (A : Type) : Type := heap -> option (A * heap).

Definition unit_m {A} (a : A) : M A := fun h => Some (a, h).

Definition bind_m {A B} (m : M A) (k : A -> M B) : M B :=
  fun h => match m h with
           | Some (a, h') => k a h'
           | None => None
           end.

Definition fail_m {A} : M A := fun _ => None.

Notation "'run' x <- m 'in' k" := (bind_m m (fun x => k))
  (at level 10, x name, m at level 100, k at level 200,
   format "'run'  x  <-  m  'in' '//' k").

Definition alloc (o : object) : M loc :=
  fun h => let l := fresh (dom h) in Some (l, <[l := o]> h).

Definition read (l : loc) : M object :=
  fun h => match h !! l with
           | Some o => Some (o, h)
           | None => None
           end.

Definition write (l : loc) (o : object) : M unit :=
  fun h => match h !! l with
           | Some _ => Some (tt, <[l := o]> h)
           | None => None
           end.

Definition read_document (l : loc) : M Document :=
  run o <- read l in
  match o with ODocument d => unit_m d | _ => fail_m end.

Definition read_documents (l : loc) : M (list loc) :=
  run o <- read l in
  match o with ODocuments items => unit_m items | _ => fail_m end.

Definition read_history (l : loc) : M (list str) :=
  run o <- read l in
  match o with OHistory items => unit_m items | _ => fail_m end.

Definition read_preferences (l : loc) : M (gmap str Q) :=
  run o <- read l in
  match o with OPreferences entries => unit_m entries | _ => fail_m end.

Definition read_context (l : loc) : M ContextObject :=
  run o <- read l in
  match o with OContext c => unit_m c | _ => fail_m end.

Definition read_engine (l : loc) : M loc :=
  run o <- read l in
  match o with OEngine documents_ref => unit_m documents_ref | _ => fail_m end.

Definition read_base_results (l : loc) : M (list BaseRef) :=
  run o <- read l in
  match o with OBaseResults items => unit_m items | _ => fail_m end.

Definition read_adapted_results (l : loc) : M (list AdaptedRef) :=
  run o <- read l in
  match o with OAdaptedResults items => unit_m items | _ => fail_m end.

(** A [for] loop over a list that the body leaves alone. *)
Fixpoint for_each {X} (l : list X) (body : X -> M unit) : M unit :=
  match l with
  | [] => unit_m tt
  | x :: l' => run _ <- body x in for_each l' body
  end.

(** The items of a dictionary, in the order of its iteration. *)
Definition dict_items (d : gmap str Q) : list (str * Q) :=
  reverse (map_to_list d).

Section Objects.

Variable lower : str -> str.

(** [UserContext.add_query]: appends to the history list in place. *)
Definition add_query_m (self : loc) (query : str) : M unit :=
  run c <- read_context self in
  run history <- read_history (query_history_ref c) in
  write (query_history_ref c) (OHistory (history ++ [lower query])).

(** [BasicSearchEngine.search] *)
Definition search_m (self : loc) (query : str) : M loc :=
  let query_tokens := tokenize lower query in
  run results <- alloc (OBaseResults []) in
  run documents_ <- read_engine self in
  run docs <- read_documents documents_ in
  run _ <- for_each docs (fun d =>
    run doc_ <- read_document d in
    let text := lower (title doc_ ++ [space] ++ content doc_) in
    let score := score_tokens text query_tokens in
    if Qltb 0 score
    then run items <- read_base_results results in
         write results
               (OBaseResults
                  (items ++ [{| doc_ref := d; ref_base_score := score |}]))
    else unit_m tt) in
  run items <- read_base_results results in
  run _ <- write results (OBaseResults (sort_reverse ref_base_score items)) in
  unit_m results.

(** [prefs[key] += 1.0] *)
Definition increment_m (key : str) (prefs : loc) : M unit :=
  run entries <- read_preferences prefs in
  write prefs (OPreferences (increment key entries)).

(** [ContextSearchEngine.build_history_preferences] *)
Definition build_history_preferences_m (self context : loc) : M loc :=
  run prefs <- alloc (OPreferences
                        (list_to_map (map (fun cat => (cat, 0%Q))
                                          [food; news; education; sport]))) in
  run c <- read_context context in
  run history <- read_history (query_history_ref c) in
  run _ <- for_each history (fun q =>
    run _ <- (if contains q (utf8 "кафе") || contains q (utf8 "ресторан")
                 || contains q (utf8 "їжа")
              then increment_m food prefs else unit_m tt) in
    run _ <- (if contains q (utf8 "новини") || contains q (utf8 "news")
              then increment_m news prefs else unit_m tt) in
    run _ <- (if contains q (utf8 "курс") || contains q (utf8 "навчання")
                 || contains q (utf8 "python")
              then increment_m education prefs else unit_m tt) in
    if contains q (utf8 "спорт") || contains q (utf8 "фітнес")
       || contains q (utf8 "басейн")
    then increment_m sport prefs else unit_m tt) in
  run entries <- read_preferences prefs in
  run _ <- write prefs
             (OPreferences
                ((fun v => if Qltb 0 v then (1 + v * 0.5)%Q else 1%Q)
                   <$> entries)) in
  unit_m prefs.

(** The body of the re-ranking loop. *)
Definition adapt_ref (c : ContextObject) (combined_prefs : gmap str Q)
    (item : BaseRef) (doc_ : Document) : AdaptedRef :=
  let base_score_ := ref_base_score item in
  let score := base_score_ in
  let score :=
    if decide (lower (location doc_) = lower (location_value c))
    then (score * 1.5)%Q else score in
  let score :=
    if decide (time_tag doc_ = time_segment_value c) then (score * 1.3)%Q
    else if decide (time_tag doc_ = any) then (score * 1.0)%Q
    else (score * 0.9)%Q in
  let cat_weight := default 1%Q (combined_prefs !! category doc_) in
  let score := (score * cat_weight)%Q in
  {| a_doc_ref := doc_ref item;
     ref_a_base_score := base_score_;
     ref_final_score := score;
     ref_context_info :=
       {| matched_location :=
            bool_decide (lower (location doc_) = lower (location_value c));
          info_time_segment := time_segment_value c;
          doc_time_tag := time_tag doc_;
          category_weight := cat_weight |} |}.

(** [ContextSearchEngine.search_with_context] *)
Definition search_with_context_m (self : loc) (query : str) (context : loc)
    : M loc :=
  run base_results <- search_m self query in
  run base_items <- read_base_results base_results in
  match base_items with
  | [] => alloc (OAdaptedResults [])
  | _ :: _ =>
    run history_prefs <- build_history_preferences_m self context in
    run entries <- read_preferences history_prefs in
    run combined_prefs <- alloc (OPreferences entries) in
    run c <- read_context context in
    run explicit <- read_preferences (preferences_ref c) in
    run _ <- for_each (dict_items explicit) (fun item =>
      run combined <- read_preferences combined_prefs in
      write combined_prefs
            (OPreferences
               (<[item.1 := (default 1%Q (combined !! item.1) * item.2)%Q]>
                  combined))) in
    run adapted_results <- alloc (OAdaptedResults []) in
    run _ <- for_each base_items (fun item =>
      run doc_ <- read_document (doc_ref item) in
      run c <- read_context context in
      run combined <- read_preferences combined_prefs in
      run items <- read_adapted_results adapted_results in
      write adapted_results
            (OAdaptedResults (items ++ [adapt_ref c combined item doc_]))) in
    run items <- read_adapted_results adapted_results in
    run _ <- write adapted_results
               (OAdaptedResults (sort_reverse ref_final_score items)) in
    unit_m adapted_results
  end.

End Objects.

(** ** Specification vocabulary

    The properties of the engines are stated with the definitions of this
    part. *)

#[global] Instance Qeq_decision (x y : Q) : Decision (x == y)%Q := Qeq_dec x y.

(** The text after the replacement loop. *)
Definition spaced (text : str) : str :=
  map (fun c => if decide (c ∈ separators) then space else c) text.

(** Descending order of the keys. *)
Definition descending {A} (key : A -> Q) : list A -> Prop :=
  StronglySorted (fun a b => (key b <= key a)%Q).

Section Vocabulary.

Variable lower : str -> str.

(** The text a document is matched on. *)
Definition searchable (d : Document) : str :=
  lower (title d ++ [space] ++ content d).

(** The number of query tokens, duplicates counted, that occur in the
    document's text. *)
Definition matching (query : str) (d : Document) : nat :=
  length (filter (fun qt => contains (searchable d) qt = true)
                 (tokenize lower query)).

Definition scored (query : str) (d : Document) : BaseResult :=
  {| doc := d; base_score := inject_Z (Z.of_nat (matching query d)) |}.

(** The step of the scoring loop on the items of the result list. *)
Definition score_step (h : heap) (query : str) (items : list BaseRef)
    (d : loc) : list BaseRef :=
  match h !! d with
  | Some (ODocument doc_) =>
    let score :=
      score_tokens (lower (title doc_ ++ [space] ++ content doc_))
                   (tokenize lower query) in
    if Qltb 0 score
    then items ++ [{| doc_ref := d; ref_base_score := score |}]
    else items
  | _ => items
  end.

(** The step of the re-ranking loop on the items of the result list. *)
Definition adapt_step (h : heap) (c : ContextObject) (combined : gmap str Q)
    (items : list AdaptedRef) (item : BaseRef) : list AdaptedRef :=
  match h !! doc_ref item with
  | Some (ODocument doc_) => items ++ [adapt_ref lower c combined item doc_]
  | _ => items
  end.

End Vocabulary.

(** The trigger substrings of a category. *)
Definition triggers (cat : str) : list str :=
  if decide (cat = food)
  then [utf8 "кафе"; utf8 "ресторан"; utf8 "їжа"]
  else if decide (cat = news)
  then [utf8 "новини"; utf8 "news"]
  else if decide (cat = education)
  then [utf8 "курс"; utf8 "навчання"; utf8 "python"]
  else if decide (cat = sport)
  then [utf8 "спорт"; utf8 "фітнес"; utf8 "басейн"]
  else [].

(** The history query holds a trigger of the category. *)
Definition triggered (cat : str) (q : str) : bool :=
  existsb (contains q) (triggers cat).

(** The number of history queries that hold a trigger of the category. *)
Definition history_count (cat : str) (history : list str) : nat :=
  length (filter (fun q => triggered cat q = true) history).

Definition history_weight (n : nat) : Q :=
  if (0 <? n)%nat then (1 + inject_Z (Z.of_nat n) * 0.5)%Q else 1%Q.

(** The four counters. *)
Definition counters (a b c d : Q) : gmap str Q :=
  <[food := a]> (<[news := b]> (<[education := c]> (<[sport := d]> ∅))).

(** One more query: each counter grows by one exactly when the query
    holds one of its category's triggers. *)
Definition bump (cat q : str) (n : nat) : nat :=
  if triggered cat q then S n else n.

(** The factor of the location step. *)
Definition location_factor (matched : bool) : Q :=
  if matched then 1.5%Q else 1%Q.

(** The factor of the time step. *)
Definition time_factor (tag segment : str) : Q :=
  if decide (tag = segment) then 1.3%Q
  else if decide (tag = any) then 1.0%Q
  else 0.9%Q.

Definition morning : str := utf8 "morning".
Definition evening : str := utf8 "evening".

(** [combined_prefs] of a call. *)
Definition combined (self : ContextSearchEngine) (context : UserContext)
    : gmap str Q :=
  combine_preferences (build_history_preferences self context)
                      (preferences context).

(** The first required field that the record lacks, in the order of the
    keyword arguments. *)
Definition missing_field (d : RawRecord) : option string :=
  match raw_id d, raw_title d, raw_content d, raw_location d, raw_category d
  with
  | None, _, _, _, _ => Some "id"%string
  | _, None, _, _, _ => Some "title"%string
  | _, _, None, _, _ => Some "content"%string
  | _, _, _, None, _ => Some "location"%string
  | _, _, _, _, None => Some "category"%string
  | Some _, Some _, Some _, Some _, Some _ => None
  end.

(** A result dictionary of the store and its value. *)
Definition base_value (h : heap) (ref : BaseRef) (r : BaseResult) : Prop :=
  h !! doc_ref ref = Some (ODocument (doc r))
  /\ ref_base_score ref = base_score r.

Definition adapted_value (h : heap) (ref : AdaptedRef) (r : AdaptedResult)
    : Prop :=
  h !! a_doc_ref ref = Some (ODocument (a_doc r))
  /\ ref_a_base_score ref = a_base_score r
  /\ ref_final_score ref = final_score r
  /\ ref_context_info ref = context_info r.

(** ** The application

    [app.py]: the module-level engine and user context, and the request
    handler [index].  The web framework, the template and the clock are
    outside the model: a request is its method and its form, the page is
    the arguments given to the template ([system_time] left out), and
    the context after the request is returned beside the page.
    [str.strip] is a built-in, a parameter like [str.lower]. *)

Record Request := {
  method : str;
  form : gmap str str
}.

(** The [context_info] dictionary of the page, without [system_time]. *)
Record PageContext := {
  shown_location : str;
  shown_time_segment : str;
  shown_query_history : list str
}.

Record Page := {
  page_query : str;
  page_basic_results : list BaseResult;
  page_context_results : list AdaptedResult;
  page_context_info : PageContext
}.

(** [l[-10:]] *)
Definition last_ten {A} (l : list A) : list A :=
  drop (length l - 10) l.

(** [user_context = UserContext(location="Kyiv", time_segment="any")] *)
Definition initial_user_context : UserContext :=
  {| query_history := []; ctx_location := utf8 "Kyiv"; time_segment := any;
     preferences := ∅ |}.

Section App.

Variable lower : str -> str.
Variable strip : str -> str.

(** [index] *)
Definition index (engine : ContextSearchEngine) (user_context : UserContext)
    (request : Request) : UserContext * Page :=
  let '(user_context, query, basic_results, context_results) :=
    if decide (method request = utf8 "POST")
    then
      let query := strip (default [] (form request !! utf8 "query")) in
      let location_ := strip (default [] (form request !! utf8 "location")) in
      let time_segment_ :=
        strip (default [] (form request !! utf8 "time_segment")) in
      let user_context :=
        if truthy location_
        then {| query_history := query_history user_context;
                ctx_location := location_;
                time_segment := time_segment user_context;
                preferences := preferences user_context |}
        else user_context in
      let user_context :=
        if decide (time_segment_ ∈ [morning; evening; any])
        then {| query_history := query_history user_context;
                ctx_location := ctx_location user_context;
                time_segment := time_segment_;
                preferences := preferences user_context |}
        else user_context in
      if truthy query
      then
        let user_context := add_query lower user_context query in
        (user_context, query, search lower engine query,
         search_with_context lower engine query user_context)
      else (user_context, query, [], [])
    else (user_context, [], [], []) in
  (user_context,
   {| page_query := query;
      page_basic_results := basic_results;
      page_context_results := context_results;
      page_context_info :=
        {| shown_location := ctx_location user_context;
           shown_time_segment := time_segment user_context;
           shown_query_history := last_ten (query_history user_context) |} |}).

(** The requests of a run of the application, one after the other, on
    the module-level context. *)
Definition serve (engine : ContextSearchEngine) (user_context : UserContext)
    (requests : list Request) : UserContext :=
  fold_left (fun user_context request =>
               (index engine user_context request).1)
            requests user_context.

End App.

(** The context after the two assignments of a POST request. *)
Definition updated_context (strip : str -> str) (user_context : UserContext)
    (request : Request) : UserContext :=
  let location_ := strip (default [] (form request !! utf8 "location")) in
  let time_segment_ :=
    strip (default [] (form request !! utf8 "time_segment")) in
  {| query_history := query_history user_context;
     ctx_location := if truthy location_ then location_
                     else ctx_location user_context;
     time_segment := if decide (time_segment_ ∈ [morning; evening; any])
                     then time_segment_ else time_segment user_context;
     preferences := preferences user_context |}.

(** The page shown for a context. *)
Definition page_of (user_context : UserContext) (query : str)
    (basic_results : list BaseResult) (context_results : list AdaptedResult)
    : Page :=
  {| page_query := query;
     page_basic_results := basic_results;
     page_context_results := context_results;
     page_context_info :=
       {| shown_location := ctx_location user_context;
          shown_time_segment := time_segment user_context;
          shown_query_history := last_ten (query_history user_context) |} |}.

(** What the module-level context is after any run started on the
    initial one: the time segment is valid, the location is not empty and
    there is no explicit preference. *)
Definition app_context (user_context : UserContext) : Prop :=
  time_segment user_context ∈ [morning; evening; any]
  /\ ctx_location user_context <> []
  /\ preferences user_context = ∅.

(** ** The engines in binary64

    The same functions with the scores as the program has them: binary64
    floats.  [score += 1.0], [score *= 1.5], [v > 0] and the comparison
    of the sort keys are the operations of [PrimFloat], in the order in
    which the source applies them; the decimal constants denote the
    nearest binary64 value, as they do in Python.  The explicit
    preferences of the context are floats, so that an infinite weight or
    a NaN can be given.  The request handler of the application is
    embedded on these engines as well. *)

Module Binary64.

Import PrimFloat.

(** [l.sort(key=key, reverse=True)] on float keys: as [sort_reverse]
    above, with the comparison of floats, which is false as soon as one
    side is NaN.  While no key is NaN the keys are totally preordered
    and this is the list that every stable descending sort returns; with
    a NaN among the keys the result of [list.sort] depends on the steps
    of its algorithm, which are not modelled. *)
Fixpoint insert_reverse {A} (key : A -> float) (x : A) (l : list A)
    : list A :=
  match l with
  | [] => [x]
  | y :: l' =>
    if (key x <? key y)%float then y :: insert_reverse key x l'
    else x :: y :: l'
  end.

Definition sort_reverse {A} (key : A -> float) (l : list A) : list A :=
  foldr (insert_reverse key) [] l.

Record UserContext := {
  query_history : list str;
  ctx_location : str;
  time_segment : str;
  preferences : gmap str float
}.

Record BaseResult := {
  doc : Document;
  base_score : float
}.

Record ContextInfo := {
  matched_location : bool;
  info_time_segment : str;
  doc_time_tag : str;
  category_weight : float
}.

Record AdaptedResult := {
  a_doc : Document;
  a_base_score : float;
  final_score : float;
  context_info : ContextInfo
}.

Section Engine.

Variable lower : str -> str.

(** [UserContext.add_query] *)
Definition add_query (self : UserContext) (query : str) : UserContext :=
  {| query_history := query_history self ++ [lower query];
     ctx_location := ctx_location self;
     time_segment := time_segment self;
     preferences := preferences self |}.

(** The inner loop of [BasicSearchEngine.search]. *)
Definition score_tokens (text : str) (query_tokens : list str) : float :=
  fold_left (fun score qt =>
               if contains text qt then (score + 1.0)%float else score)
            query_tokens 0.0%float.

Definition search (self : BasicSearchEngine) (query : str)
    : list BaseResult :=
  let query_tokens := tokenize lower query in
  let results :=
    fold_left (fun results doc_ =>
                 let text := lower (title doc_ ++ [space] ++ content doc_) in
                 let score := score_tokens text query_tokens in
                 if (0 <? score)%float
                 then results ++ [{| doc := doc_; base_score := score |}]
                 else results)
              (documents self) [] in
  sort_reverse base_score results.

(** [prefs[key] += 1.0] *)
Definition increment (key : str) (prefs : gmap str float) : gmap str float :=
  alter (fun v => (v + 1.0)%float) key prefs.

(** The first loop of [build_history_preferences]: one history query. *)
Definition count_query (prefs : gmap str float) (q : str) : gmap str float :=
  let prefs :=
    if contains q (utf8 "кафе") || contains q (utf8 "ресторан")
       || contains q (utf8 "їжа")
    then increment food prefs else prefs in
  let prefs :=
    if contains q (utf8 "новини") || contains q (utf8 "news")
    then increment news prefs else prefs in
  let prefs :=
    if contains q (utf8 "курс") || contains q (utf8 "навчання")
       || contains q (utf8 "python")
    then increment education prefs else prefs in
  let prefs :=
    if contains q (utf8 "спорт") || contains q (utf8 "фітнес")
       || contains q (utf8 "басейн")
    then increment sport prefs else prefs in
  prefs.

Definition history_counts (context : UserContext) : gmap str float :=
  fold_left count_query (query_history context)
            (list_to_map (map (fun cat => (cat, 0.0%float))
                              [food; news; education; sport])).

Definition build_history_preferences (self : ContextSearchEngine)
    (context : UserContext) : gmap str float :=
  (fun v => if (0 <? v)%float then (1.0 + v * 0.5)%float else 1.0%float)
    <$> history_counts context.

(** [combined_prefs] after the merge loop. *)
Definition combine_preferences (history_prefs explicit : gmap str float)
    : gmap str float :=
  map_fold (fun cat w combined_prefs =>
              <[cat := (default 1.0%float (combined_prefs !! cat) * w)%float]>
                combined_prefs)
           history_prefs explicit.

(** The body of the re-ranking loop: one base result. *)
Definition adapt (context : UserContext) (combined_prefs : gmap str float)
    (item : BaseResult) : AdaptedResult :=
  let doc_ := doc item in
  let base_score_ := base_score item in
  let score := base_score_ in
  let score :=
    if decide (lower (location doc_) = lower (ctx_location context))
    then (score * 1.5)%float else score in
  let score :=
    if decide (time_tag doc_ = time_segment context) then (score * 1.3)%float
    else if decide (time_tag doc_ = any) then (score * 1.0)%float
    else (score * 0.9)%float in
  let cat_weight := default 1.0%float (combined_prefs !! category doc_) in
  let score := (score * cat_weight)%float in
  {| a_doc := doc_;
     a_base_score := base_score_;
     final_score := score;
     context_info :=
       {| matched_location :=
            bool_decide (lower (location doc_) = lower (ctx_location context));
          info_time_segment := time_segment context;
          doc_time_tag := time_tag doc_;
          category_weight := cat_weight |} |}.

Definition search_with_context (self : ContextSearchEngine) (query : str)
    (context : UserContext) : list AdaptedResult :=
  let base_results := search self query in
  match base_results with
  | [] => []
  | _ :: _ =>
    let history_prefs := build_history_preferences self context in
    let combined_prefs :=
      combine_preferences history_prefs (preferences context) in
    let adapted_results :=
      fold_left (fun adapted_results item =>
                   adapted_results ++ [adapt context combined_prefs item])
                base_results [] in
    sort_reverse final_score adapted_results
  end.

End Engine.

(** *** The application *)

Record Page := {
  page_query : str;
  page_basic_results : list BaseResult;
  page_context_results : list AdaptedResult;
  page_context_info : PageContext
}.

(** [user_context = UserContext(location="Kyiv", time_segment="any")] *)
Definition initial_user_context : UserContext :=
  {| query_history := []; ctx_location := utf8 "Kyiv"; time_segment := any;
     preferences := ∅ |}.

Section App.

Variable lower : str -> str.
Variable strip : str -> str.

(** [index] *)
Definition index (engine : ContextSearchEngine) (user_context : UserContext)
    (request : Request) : UserContext * Page :=
  let '(user_context, query, basic_results, context_results) :=
    if decide (method request = utf8 "POST")
    then
      let query := strip (default [] (form request !! utf8 "query")) in
      let location_ := strip (default [] (form request !! utf8 "location")) in
      let time_segment_ :=
        strip (default [] (form request !! utf8 "time_segment")) in
      let user_context :=
        if truthy location_
        then {| query_history := query_history user_context;
                ctx_location := location_;
                time_segment := time_segment user_context;
                preferences := preferences user_context |}
        else user_context in
      let user_context :=
        if decide (time_segment_ ∈ [morning; evening; any])
        then {| query_history := query_history user_context;
                ctx_location := ctx_location user_context;
                time_segment := time_segment_;
                preferences := preferences user_context |}
        else user_context in
      if truthy query
      then
        let user_context := add_query lower user_context query in
        (user_context, query, search lower engine query,
         search_with_context lower engine query user_context)
      else (user_context, query, [], [])
    else (user_context, [], [], []) in
  (user_context,
   {| page_query := query;
      page_basic_results := basic_results;
      page_context_results := context_results;
      page_context_info :=
        {| shown_location := ctx_location user_context;
           shown_time_segment := time_segment user_context;
           shown_query_history := last_ten (query_history user_context) |} |}).

End App.

(** *** Specification vocabulary *)

(** [0.0] to which [1.0] has been added [n] times: the base score of a
    document that holds [n] of the query tokens. *)
Definition counted (n : nat) : float :=
  Nat.iter n (fun score => (score + 1.0)%float) 0.0%float.

Definition scored (lower : str -> str) (query : str) (d : Document)
    : BaseResult :=
  {| doc := d; base_score := counted (matching lower query d) |}.

(** The documents that [search] keeps: [score > 0]. *)
Definition found (lower : str -> str) (query : str) (d : Document) : Prop :=
  (0 <? counted (matching lower query d))%float = true.

#[global] Instance found_decision lower query d
    : Decision (found lower query d) :=
  decide ((0 <? counted (matching lower query d))%float = true).

Definition combined (self : ContextSearchEngine) (context : UserContext)
    : gmap str float :=
  combine_preferences (build_history_preferences self context)
                      (preferences context).

(** [x == y] on floats: false as soon as one side is NaN. *)
Definition tie (x y : float) : Prop := (x =? y)%float = true.

#[global] Instance tie_decision x y : Decision (tie x y) :=
  decide ((x =? y)%float = true).

Definition descending {A} (key : A -> float) : list A -> Prop :=
  StronglySorted (fun a b => (key b <=? key a)%float = true).

(** No key is NaN. *)
Definition numbers {A} (key : A -> float) : list A -> Prop :=
  Forall (fun a => is_nan (key a) = false).

(** The place of a float that is not NaN in the order of the floats:
    sign and class, then exponent, then mantissa.  The two zeros have
    the same place. *)
Definition place (f : SpecFloat.spec_float) : Z * Z * Z :=
  match f with
  | SpecFloat.S754_zero _ => (0, 0, 0)
  | SpecFloat.S754_infinity false => (2, 0, 0)
  | SpecFloat.S754_infinity true => (-2, 0, 0)
  | SpecFloat.S754_nan => (0, 0, 0)
  | SpecFloat.S754_finite false m e => (1, e, Zpos m)
  | SpecFloat.S754_finite true m e => (-1, - e, Zneg m)
  end%Z.

Definition before (a b : Z * Z * Z) : Prop :=
  (a.1.1 < b.1.1
   \/ (a.1.1 = b.1.1
       /\ (a.1.2 < b.1.2 \/ (a.1.2 = b.1.2 /\ a.2 < b.2))))%Z.

End Binary64.

(** ** Instances for the examples *)

(** Simple case mapping of one code point: Basic Latin, Latin-1 Supplement
    and the Cyrillic block. *)
Definition lower_point (c : char) : char :=
  if (65 <=? c) && (c <=? 90) then c + 32
  else if (192 <=? c) && (c <=? 222) && negb (c =? 215) then c + 32
  else if (1024 <=? c) && (c <=? 1039) then c + 80
  else if (1040 <=? c) && (c <=? 1071) then c + 32
  else c.

Definition simple_lower (s : str) : str := map lower_point s.

(** The characters that [str.strip] removes: those for which
    [str.isspace] holds. *)
Definition whitespace : list char :=
  [9; 10; 11; 12; 13; 28; 29; 30; 31; 32; 133; 160; 5760; 8192; 8193; 8194;
   8195; 8196; 8197; 8198; 8199; 8200; 8201; 8202; 8232; 8233; 8239; 8287;
   12288].

Fixpoint lstrip (s : str) : str :=
  match s with
  | [] => []
  | c :: s' => if bool_decide (c ∈ whitespace) then lstrip s' else s
  end.

Definition simple_strip (s : str) : str :=
  reverse (lstrip (reverse (lstrip s))).

(** A POST request with a query. *)
Definition query_request (query : string) : Request :=
  {| method := utf8 "POST"; form := {[ utf8 "query" := utf8 query ]} |}.

(** The corpus and the context of the end-to-end example. *)
Definition cafe_doc : Document :=
  {| doc_id := 1; title := utf8 "Кафе Перлина"; content := utf8 "смачна їжа";
     location := utf8 "Kyiv"; category := food; time_tag := any |}.

Definition cafe_context : UserContext :=
  {| query_history := [utf8 "кафе хороше"]; ctx_location := utf8 "Kyiv";
     time_segment := any; preferences := ∅ |}.

(** A document and a context without history or preferences, by time tag
    and time segment. *)
Definition tea_doc (tag : str) : Document :=
  {| doc_id := 7; title := utf8 "tea house"; content := utf8 "green tea";
     location := utf8 "Lviv"; category := utf8 "drinks"; time_tag := tag |}.

Definition plain_context (segment : str) : UserContext :=
  {| query_history := []; ctx_location := utf8 "Kyiv";
     time_segment := segment; preferences := ∅ |}.

(** Two documents that hold the three words of the query [green tea
    house], both tagged for the evening: the first is in the user's
    city, the second in the category of the user's history. *)
Definition near_doc : Document :=
  {| doc_id := 1; title := utf8 "green tea house"; content := utf8 "";
     location := utf8 "Kyiv"; category := utf8 "drinks"; time_tag := evening |}.

Definition food_doc : Document :=
  {| doc_id := 2; title := utf8 "green tea house"; content := utf8 "";
     location := utf8 "Lviv"; category := food; time_tag := evening |}.

(** A morning in Kyiv after one query for a café, in the two models. *)
Definition morning_context : UserContext :=
  {| query_history := [utf8 "кафе"]; ctx_location := utf8 "Kyiv";
     time_segment := morning; preferences := ∅ |}.

Definition morning_context64 (explicit : gmap str PrimFloat.float)
    : Binary64.UserContext :=
  {| Binary64.query_history := [utf8 "кафе"];
     Binary64.ctx_location := utf8 "Kyiv";
     Binary64.time_segment := morning;
     Binary64.preferences := explicit |}.

(** Two records of a loaded array: one without time_tag, one without
    title and category. *)
Definition complete_record : RawRecord :=
  {| raw_id := Some 1%Z; raw_title := Some (utf8 "tea house");
     raw_content := Some (utf8 "green tea"); raw_location := Some (utf8 "Lviv");
     raw_category := Some food; raw_time_tag := None |}.

Definition untitled_record : RawRecord :=
  {| raw_id := Some 2%Z; raw_title := None;
     raw_content := Some (utf8 "black tea"); raw_location := Some (utf8 "Kyiv");
     raw_category := None; raw_time_tag := Some morning |}.

(** A store with an engine over two documents and a context. *)
Definition demo_store : heap :=
  list_to_map
    [(0%nat, OEngine 1%nat); (1%nat, ODocuments [2%nat; 3%nat]);
     (2%nat, ODocument (tea_doc morning)); (3%nat, ODocument cafe_doc);
     (4%nat, OContext {| query_history_ref := 5%nat;
                         location_value := utf8 "Kyiv";
                         time_segment_value := any;
                         preferences_ref := 6%nat |});
     (5%nat, OHistory [utf8 "кафе хороше"]);
     (6%nat, OPreferences {[ food := 2%Q ]})].

(** * Proofs *)

(** ** Strings *)

Lemma replace_separators_map (seps : str) (text : str) :
  fold_left (fun text s => replace s space text) seps text
  = map (fun c => if decide (c ∈ seps) then space else c) text.
Proof.
  revert text. induction seps as [|s seps IH]; intros text; simpl.
  - rewrite <- (map_id text) at 1. apply map_ext. intros c.
    destruct (decide (c ∈ [])) as [H|_]; [inversion H | done].
  - rewrite IH. unfold replace. rewrite map_map. apply map_ext. intros c.
    destruct (N.eqb_spec c s) as [->|Hne]; cbn beta iota.
    + rewrite (decide_True (P := s ∈ s :: seps)) by left.
      by case_decide.
    + repeat case_decide; try done; exfalso.
      * apply H0. by right.
      * apply elem_of_cons in H0 as [?|?]; done.
Qed.

Lemma split_nonempty sep text : split sep text <> [].
Proof.
  destruct text as [|c rest]; simpl; [done|].
  destruct (c =? sep); [done|]. by destruct (split sep rest).
Qed.

(** The fragments of [split] hold no separator and only characters of the
    text. *)
Lemma split_fragments sep text :
  Forall (fun w => (sep ∉ w) /\ (forall c, c ∈ w -> c ∈ text))
         (split sep text).
Proof.
  induction text as [|c rest IH]; simpl.
  - repeat constructor; [by intros ?%elem_of_nil | done].
  - assert (Hrest : Forall (fun w => (sep ∉ w) /\ (forall d, d ∈ w -> d ∈ c :: rest))
                      (split sep rest)).
    { eapply Forall_impl; [exact IH|]. intros w [? Hw]. split; [done|].
      intros d Hd. right. by apply Hw. }
    destruct (N.eqb_spec c sep) as [->|Hne].
    + constructor; [|done]. split; [by intros ?%elem_of_nil | by intros ? ?%elem_of_nil].
    + destruct (split sep rest) as [|w ws] eqn:E;
        [by apply split_nonempty in E|].
      inversion Hrest as [|? ? [Hw1 Hw2] Hws]; subst. constructor; [|done].
      split.
      * intros [?|?]%elem_of_cons; [congruence | done].
      * intros d [->|?]%elem_of_cons; [left | by apply Hw2].
Qed.

(** [split] undoes [join]: joining the fragments with the separator gives
    the text back, so the fragments come in source order and none is lost
    or merged. *)
Lemma join_split sep text : join [sep] (split sep text) = text.
Proof.
  induction text as [|c rest IH]; simpl; [done|].
  pose proof (split_nonempty sep rest) as Hne.
  destruct (N.eqb_spec c sep) as [->|Hc].
  - destruct (split sep rest) as [|w ws]; [done|]. simpl in *. by rewrite IH.
  - destruct (split sep rest) as [|w ws]; [done|].
    destruct ws as [|w' ws]; simpl in *; by rewrite <- IH.
Qed.

Lemma split_no_sep sep (w : str) : sep ∉ w -> split sep w = [w].
Proof.
  induction w as [|c w IH]; intros Hw; simpl; [done|].
  destruct (N.eqb_spec c sep) as [->|Hc].
  - exfalso. apply Hw. left.
  - rewrite IH; [done|]. intros ?. apply Hw. by right.
Qed.

Lemma split_app_sep sep (w rest : str) :
  sep ∉ w -> split sep (w ++ sep :: rest) = w :: split sep rest.
Proof.
  induction w as [|c w IH]; intros Hw; simpl.
  - by rewrite N.eqb_refl.
  - destruct (N.eqb_spec c sep) as [->|Hc].
    + exfalso. apply Hw. left.
    + rewrite IH; [done|]. intros ?. apply Hw. by right.
Qed.

Lemma split_join sep (ws : list str) :
  ws <> [] -> Forall (fun w => sep ∉ w) ws -> split sep (join [sep] ws) = ws.
Proof.
  induction ws as [|w ws IH]; intros Hne Hall; [done|].
  inversion Hall as [|? ? Hw Hws]; subst.
  destruct ws as [|w' ws].
  - simpl. by apply split_no_sep.
  - cbn [join]. cbn [app]. rewrite split_app_sep by done.
    f_equal. apply IH; done.
Qed.

(** ** Tokenizer *)

Section Tokenizer.

Variable lower : str -> str.

Lemma tokenize_unfold text :
  tokenize lower text
  = filter (fun t => truthy t = true) (split space (spaced (lower text))).
Proof. unfold tokenize, spaced. by rewrite replace_separators_map. Qed.

Lemma space_not_separator : space ∉ separators.
Proof. apply (bool_decide_unpack _). by vm_compute. Qed.

Lemma spaced_id (text : str) :
  Forall (fun c => c ∉ separators) text -> spaced text = text.
Proof.
  induction 1 as [|c text Hc _ IH]; simpl; [done|].
  rewrite IH. by case_decide.
Qed.

Lemma spaced_separators (text : str) :
  Forall (fun c => c ∈ separators) text ->
  spaced text = map (fun _ => space) text.
Proof.
  induction 1 as [|c text Hc _ IH]; simpl; [done|].
  rewrite IH. by case_decide.
Qed.

Lemma tokens_of_spaces (text : str) :
  filter (fun t => truthy t = true) (split space (map (fun _ => space) text))
  = [].
Proof. induction text as [|c text IH]; simpl; done. Qed.

(** What a token is made of: it is not empty and holds characters of the
    lowercased text that are neither spaces nor separators. *)
Lemma tokenize_tokens text :
  Forall (fun t => t <> [] /\ (space ∉ t)
                   /\ forall c, c ∈ t -> (c ∈ lower text) /\ (c ∉ separators))
         (tokenize lower text).
Proof.
  rewrite tokenize_unfold. apply Forall_forall. intros t Ht.
  apply list_elem_of_filter in Ht as [Htrue Ht].
  pose proof (split_fragments space (spaced (lower text))) as Hall.
  rewrite Forall_forall in Hall.
  destruct (Hall t) as [Hsp Hsub]; [done|].
  split; [by destruct t|]. split; [done|].
  intros c Hc. specialize (Hsub c Hc). unfold spaced in Hsub.
  apply list_elem_of_fmap in Hsub as (d & Hcd & Hd).
  case_decide; subst.
  - exfalso. by apply Hsp.
  - done.
Qed.

Lemma filter_nonempty_id (ws : list str) :
  Forall (fun w => w <> []) ws -> filter (fun t => truthy t = true) ws = ws.
Proof.
  induction 1 as [|w ws Hw _ IH]; [done|].
  rewrite filter_cons_True; [by rewrite IH | by destruct w].
Qed.

(** Tokenizing space-joined tokens gives the tokens back, as soon as
    lowercasing leaves the joined text alone. *)
Lemma tokenize_join (ws : list str) :
  Forall (fun w => w <> [] /\ (space ∉ w) /\ forall c, c ∈ w -> c ∉ separators)
         ws ->
  lower (join [space] ws) = join [space] ws ->
  tokenize lower (join [space] ws) = ws.
Proof.
  intros Hws Hlow. rewrite tokenize_unfold, Hlow.
  assert (Hclean : Forall (fun c => c ∉ separators) (join [space] ws)).
  { clear Hlow. induction Hws as [|w ws (_ & _ & Hw) Hws IH]; [constructor|].
    destruct ws as [|w' ws]; simpl.
    - by apply Forall_forall.
    - apply Forall_app. split; [by apply Forall_forall|].
      constructor; [apply space_not_separator | exact IH]. }
  rewrite spaced_id by done.
  destruct ws as [|w ws]; [done|].
  rewrite split_join; [| done |].
  - apply filter_nonempty_id. eapply Forall_impl; [exact Hws|]. by intros ? [? _].
  - eapply Forall_impl; [exact Hws|]. by intros ? (_ & ? & _).
Qed.

(** The characters of a joined token list are spaces or characters of a
    token. *)
Lemma join_chars (ws : list str) c :
  c ∈ join [space] ws -> c = space \/ exists w, w ∈ ws /\ c ∈ w.
Proof.
  induction ws as [|w ws IH]; simpl; [by intros ?%elem_of_nil|].
  destruct ws as [|w' ws].
  - intros Hc. right. exists w. split; [left | done].
  - rewrite elem_of_app, elem_of_cons.
    intros [Hc|[->|Hc]]; [right | by left |].
    + exists w. split; [left | done].
    + destruct (IH Hc) as [->|(w0 & Hw0 & Hc0)]; [by left|].
      right. exists w0. split; [by right | done].
Qed.

End Tokenizer.

Ltac bool_to_prop :=
  rewrite ?andb_true_iff, ?andb_false_iff, ?negb_true_iff, ?negb_false_iff,
    ?N.leb_le, ?N.leb_gt, ?N.eqb_eq, ?N.eqb_neq in *.

(** [lower_point] produces no letter that it would change. *)
Lemma lower_point_range c :
  (lower_point c < 65 \/ 90 < lower_point c)
  /\ (lower_point c < 192 \/ 222 < lower_point c \/ lower_point c = 215)
  /\ (lower_point c < 1024 \/ 1071 < lower_point c).
Proof.
  unfold lower_point.
  destruct ((65 <=? c) && (c <=? 90)) eqn:E1; [bool_to_prop; lia|].
  destruct ((192 <=? c) && (c <=? 222) && negb (c =? 215)) eqn:E2;
    [bool_to_prop; lia|].
  destruct ((1024 <=? c) && (c <=? 1039)) eqn:E3; [bool_to_prop; lia|].
  destruct ((1040 <=? c) && (c <=? 1071)) eqn:E4; bool_to_prop; lia.
Qed.

Lemma lower_point_fixed v :
  (v < 65 \/ 90 < v) -> (v < 192 \/ 222 < v \/ v = 215) ->
  (v < 1024 \/ 1071 < v) -> lower_point v = v.
Proof.
  intros H1 H2 H3. unfold lower_point.
  destruct ((65 <=? v) && (v <=? 90)) eqn:E1; [bool_to_prop; lia|].
  destruct ((192 <=? v) && (v <=? 222) && negb (v =? 215)) eqn:E2;
    [bool_to_prop; lia|].
  destruct ((1024 <=? v) && (v <=? 1039)) eqn:E3; [bool_to_prop; lia|].
  destruct ((1040 <=? v) && (v <=? 1071)) eqn:E4; [bool_to_prop; lia|].
  done.
Qed.

(** [simple_lower] leaves alone what it has produced. *)
Lemma lower_point_idempotent c : lower_point (lower_point c) = lower_point c.
Proof.
  destruct (lower_point_range c) as (H1 & H2 & H3).
  by apply lower_point_fixed.
Qed.

Lemma simple_lower_stable (text u : str) :
  (forall c, c ∈ u -> c = space \/ c ∈ simple_lower text) ->
  simple_lower u = u.
Proof.
  intros Hu. unfold simple_lower. rewrite <- (map_id u) at 2.
  apply map_ext_in. intros c Hc%list_elem_of_In.
  destruct (Hu c Hc) as [->|Hin]; [done|].
  apply list_elem_of_fmap in Hin as (d & -> & _). apply lower_point_idempotent.
Qed.

Lemma simple_lower_separators (text : str) :
  Forall (fun c => c ∈ separators) text -> simple_lower text = text.
Proof.
  intros Hall. unfold simple_lower. rewrite <- (map_id text) at 2.
  apply map_ext_in. intros c Hc%list_elem_of_In.
  rewrite Forall_forall in Hall. specialize (Hall c Hc).
  unfold separators in Hall.
  repeat (apply elem_of_cons in Hall as [->|Hall]; [done|]).
  by apply elem_of_nil in Hall.
Qed.

(** C9: tokenize is idempotent on its own output: joining the tokens of
    [tokenize s] with single spaces and tokenizing again yields the same
    tokens, for every string [s].  The hypothesis is the fact about the
    built-in [str.lower] that the proof rests on: a text made of spaces and
    of characters of a lowercased text is not changed by lowercasing. *)
Theorem tokenize_idempotent (lower : str -> str)
    (Hstable : forall text u : str,
        (forall c, c ∈ u -> c = space \/ c ∈ lower text) -> lower u = u)
    (s : str) :
  tokenize lower (join [space] (tokenize lower s)) = tokenize lower s.
Proof.
  pose proof (tokenize_tokens lower s) as Htok.
  apply tokenize_join.
  - eapply Forall_impl; [exact Htok|]. intros t (Hne & Hsp & Hc).
    repeat split; [done..|]. intros c Hin. by apply Hc.
  - apply (Hstable s). intros c Hc.
    destruct (join_chars _ _ Hc) as [->|(w & Hw & Hcw)]; [by left|].
    right. rewrite Forall_forall in Htok.
    destruct (Htok w Hw) as (_ & _ & Hchars). by apply Hchars.
Qed.

Lemma tokenize_idempotent_witness :
  tokenize simple_lower
           (join [space] (tokenize simple_lower (utf8 "Hello, World! Hello")))
  = tokenize simple_lower (utf8 "Hello, World! Hello").
Proof. apply (tokenize_idempotent simple_lower simple_lower_stable). Defined.

(** C7, amended: tokenize lowercases its input, replaces every character of
    the separator set by a space, splits on spaces and drops the empty
    fragments; the fragments are in source order, duplicates kept.  The
    separator set is comma, full stop, semicolon, colon, exclamation and
    question mark, round, square and curly brackets, the straight double
    quote and the apostrophe, the angle quotation marks U+00AB and U+00BB,
    line feed, carriage return and tab; the curly quotes U+2018, U+2019,
    U+201C, U+201D are not in it.  The empty string and a string of
    separators give no token, and "Hello, World!" gives hello, world. *)
Theorem tokenize_spec (lower : str -> str)
    (Hsep : forall text : str,
        Forall (fun c => c ∈ separators) text -> lower text = text)
    (Hhello : lower (utf8 "Hello, World!") = utf8 "hello, world!") :
  (forall text,
      tokenize lower text
      = filter (fun t => truthy t = true)
               (split space
                  (map (fun c => if decide (c ∈ separators) then space else c)
                       (lower text))))
  /\ (forall text, join [space] (split space text) = text)
  /\ (forall c, c ∈ separators
                <-> c ∈ utf8 ",.;:!?()[]{}'«»" \/ c ∈ [34; 10; 13; 9])
  /\ Forall (fun c => c ∉ separators) [8216; 8217; 8220; 8221]
  /\ tokenize lower [] = []
  /\ (forall text, Forall (fun c => c ∈ separators) text ->
                   tokenize lower text = [])
  /\ tokenize lower (utf8 "Hello, World!") = [utf8 "hello"; utf8 "world"].
Proof.
  assert (Hall : forall text, Forall (fun c => c ∈ separators) text ->
                              tokenize lower text = []).
  { intros text Htext. rewrite tokenize_unfold, (Hsep text Htext).
    rewrite spaced_separators by done. apply tokens_of_spaces. }
  split; [apply tokenize_unfold|]. split; [apply join_split|].
  split.
  { intros c. vm_compute utf8. unfold separators.
    rewrite !elem_of_cons, !elem_of_nil. tauto. }
  split.
  { repeat constructor; apply (bool_decide_unpack _); by vm_compute. }
  split; [by apply Hall|]. split; [exact Hall|].
  rewrite tokenize_unfold, Hhello. by vm_compute.
Qed.

Lemma tokenize_spec_witness :
  tokenize simple_lower (utf8 ",;") = []
  /\ tokenize simple_lower (utf8 "Hello, World!") = [utf8 "hello"; utf8 "world"].
Proof.
  destruct (tokenize_spec simple_lower simple_lower_separators eq_refl)
    as (_ & _ & _ & _ & _ & Hseps & Hhello).
  split; [|exact Hhello]. apply Hseps. repeat constructor.
Defined.

(** A curly quote is not a separator: it stays inside its token. *)
Lemma tokenize_curly_quotes_kept :
  8220 ∈ utf8 "“a” b"
  /\ tokenize simple_lower (utf8 "“a” b") = [utf8 "“a”"; utf8 "b"]
  /\ tokenize simple_lower (utf8 "“a” b") <> [utf8 "a"; utf8 "b"].
Proof.
  split; [vm_compute; left|]. split; [by vm_compute|].
  vm_compute. discriminate.
Qed.

(** ** Sorting *)

Lemma Qltb_lt (x y : Q) : Qltb x y = true <-> (x < y)%Q.
Proof. unfold Qltb, Qlt. apply Z.ltb_lt. Qed.

Lemma Qltb_ge (x y : Q) : Qltb x y = false <-> (y <= x)%Q.
Proof. unfold Qltb, Qle. apply Z.ltb_ge. Qed.

Lemma Qnot_eq_compute (x y : Q) : Qeq_bool x y = false -> ~ (x == y)%Q.
Proof. apply Qeq_bool_neq. Qed.

Section Sorting.

Context {A : Type} (key : A -> Q).

Lemma insert_reverse_perm x l : insert_reverse key x l ≡ₚ x :: l.
Proof.
  induction l as [|y l IH]; simpl; [done|].
  destruct (Qltb (key x) (key y)); [|done].
  rewrite IH. apply Permutation_swap.
Qed.

Lemma sort_reverse_perm l : sort_reverse key l ≡ₚ l.
Proof.
  induction l as [|x l IH]; simpl; [done|].
  rewrite insert_reverse_perm. by rewrite IH.
Qed.

Lemma insert_reverse_descending x l :
  descending key l -> descending key (insert_reverse key x l).
Proof.
  unfold descending. induction 1 as [|y l Hl IH Hy]; simpl.
  - repeat constructor.
  - destruct (Qltb (key x) (key y)) eqn:E.
    + constructor; [done|].
      rewrite insert_reverse_perm. constructor; [|done].
      apply Qltb_lt in E. by apply Qlt_le_weak.
    + apply Qltb_ge in E. constructor; [by constructor|].
      constructor; [done|]. eapply Forall_impl; [exact Hy|].
      intros z Hz. simpl in Hz. by apply Qle_trans with (key y).
Qed.

Lemma sort_reverse_descending l : descending key (sort_reverse key l).
Proof.
  induction l as [|x l IH]; simpl; [constructor|].
  by apply insert_reverse_descending.
Qed.

(** Stability: the elements of one key keep their order. *)
Lemma insert_reverse_stable k x l :
  filter (fun a => (key a == k)%Q) (insert_reverse key x l)
  = filter (fun a => (key a == k)%Q) (x :: l).
Proof.
  induction l as [|y l IH]; simpl; [done|].
  destruct (Qltb (key x) (key y)) eqn:E; [|done].
  apply Qltb_lt in E.
  rewrite (filter_cons _ y (insert_reverse key x l)), IH.
  rewrite !(filter_cons _ x), (filter_cons _ y l).
  destruct (decide (key x == k)%Q) as [Hx|Hx]; [|done].
  destruct (decide (key y == k)%Q) as [Hy|Hy]; [|done].
  exfalso. rewrite Hx, Hy in E. by apply Qlt_irrefl in E.
Qed.

Lemma sort_reverse_stable k l :
  filter (fun a => (key a == k)%Q) (sort_reverse key l)
  = filter (fun a => (key a == k)%Q) l.
Proof.
  induction l as [|x l IH]; simpl; [done|].
  rewrite insert_reverse_stable, !filter_cons. by rewrite IH.
Qed.

Lemma sort_reverse_nil_inv l : sort_reverse key l = [] -> l = [].
Proof.
  intros H. apply Permutation_nil. by rewrite <- H, sort_reverse_perm.
Qed.

End Sorting.

(** The reading and the appending loops as maps and filters. *)
Lemma fold_left_append {A B} (P : A -> bool) (f : A -> B) (l : list A)
    (acc : list B) :
  fold_left (fun acc a => if P a then acc ++ [f a] else acc) l acc
  = acc ++ map f (filter (fun a => P a = true) l).
Proof.
  revert acc. induction l as [|a l IH]; intros acc; simpl.
  - by rewrite app_nil_r.
  - rewrite IH, filter_cons. destruct (P a) eqn:E.
    + rewrite decide_True by done. by rewrite <- app_assoc.
    + rewrite decide_False by done. done.
Qed.

Lemma fold_left_append_all {A B} (f : A -> B) (l : list A) (acc : list B) :
  fold_left (fun acc a => acc ++ [f a]) l acc = acc ++ map f l.
Proof.
  revert acc. induction l as [|a l IH]; intros acc; simpl.
  - by rewrite app_nil_r.
  - rewrite IH. by rewrite <- app_assoc.
Qed.

Lemma filter_map {A B} (f : A -> B) (P : B -> Prop)
    `{forall b, Decision (P b)} (l : list A) :
  filter P (map f l) = map f (filter (fun a => P (f a)) l).
Proof.
  induction l as [|a l IH]; simpl; [done|].
  rewrite !filter_cons. case_decide; simpl; by rewrite IH.
Qed.

Lemma filter_map_section {A B} (f : A -> B) (g : B -> A) (P : B -> Prop)
    `{forall b, Decision (P b)} (l : list A) :
  (forall a, g (f a) = a) ->
  map g (filter P (map f l)) = filter (fun a => P (f a)) l.
Proof.
  intros Hgf. induction l as [|a l IH]; simpl; [done|].
  rewrite !filter_cons. case_decide; simpl; by rewrite IH, ?Hgf.
Qed.

(** ** Substring test *)

Lemma starts_with_spec text sub :
  starts_with text sub = true <-> exists post, text = sub ++ post.
Proof.
  revert text. induction sub as [|c sub IH]; intros text; simpl.
  - destruct text; simpl; split; eauto.
  - destruct text as [|d text]; simpl.
    + split; [done | by intros [? ?]].
    + rewrite andb_true_iff, N.eqb_eq, IH. split.
      * intros [-> [post ->]]. by exists post.
      * intros [post [= -> ->]]. split; [done | by exists post].
Qed.

Lemma contains_spec text sub :
  contains text sub = true <-> exists pre post, text = pre ++ sub ++ post.
Proof.
  induction text as [|d text IH]; cbn [contains].
  - rewrite orb_false_r, starts_with_spec. split.
    + intros [post ->]. by exists [], post.
    + intros (pre & post & H). symmetry in H.
      apply app_eq_nil in H as [-> H]. by exists post.
  - rewrite orb_true_iff, starts_with_spec, IH. split.
    + intros [[post ->]|(pre & post & ->)]; [by exists [], post|].
      by exists (d :: pre), post.
    + intros ([|e pre] & post & H); simpl in H.
      * left. by exists post.
      * right. injection H as _ ->. by exists pre, post.
Qed.

(** ** Base scorer *)

Section BaseScorer.

Variable lower : str -> str.

Lemma Qplus_inject_1 a : (inject_Z a + 1)%Q = inject_Z (a + 1).
Proof. unfold Qplus, inject_Z. simpl. f_equal. lia. Qed.

Lemma Qltb_0_inject a : Qltb 0 (inject_Z a) = (0 <? a)%Z.
Proof. unfold Qltb, inject_Z. simpl. f_equal. lia. Qed.

Lemma score_tokens_count text tokens :
  score_tokens text tokens
  = inject_Z (Z.of_nat
      (length (filter (fun qt => contains text qt = true) tokens))).
Proof.
  unfold score_tokens. change 0%Q with (inject_Z 0).
  assert (Hgen : forall a,
    fold_left (fun score qt => if contains text qt then (score + 1)%Q else score)
              tokens (inject_Z a)
    = inject_Z (a + Z.of_nat
        (length (filter (fun qt => contains text qt = true) tokens)))).
  { induction tokens as [|t tokens IH]; intros a; simpl.
    - f_equal. lia.
    - rewrite filter_cons. destruct (contains text t) eqn:E.
      + rewrite decide_True by done. rewrite Qplus_inject_1, IH. f_equal.
        simpl length. lia.
      + rewrite decide_False by done. apply IH. }
  apply Hgen.
Qed.

Lemma search_unfold self query :
  search lower self query
  = sort_reverse base_score
      (map (scored lower query)
           (filter (fun d => (0 < matching lower query d)%nat) (documents self))).
Proof.
  unfold search. f_equal.
  rewrite (fold_left_append
             (fun d => Qltb 0 (score_tokens (searchable lower d) (tokenize lower query)))
             (fun d => {| doc := d;
                          base_score := score_tokens (searchable lower d)
                                                     (tokenize lower query) |})).
  simpl.
  rewrite (list_filter_iff _ (fun d => (0 < matching lower query d)%nat)).
  - apply map_ext. intros d. unfold scored, matching.
    by rewrite score_tokens_count.
  - intros d. rewrite score_tokens_count, Qltb_0_inject.
    unfold matching. rewrite Z.ltb_lt. lia.
Qed.

End BaseScorer.

(** ** History preferences *)

Ltac key_neq :=
  let H := fresh in intros H; vm_compute in H; discriminate H.

Lemma food_news : food <> news. Proof. key_neq. Qed.
Lemma food_education : food <> education. Proof. key_neq. Qed.
Lemma food_sport : food <> sport. Proof. key_neq. Qed.
Lemma news_education : news <> education. Proof. key_neq. Qed.
Lemma news_sport : news <> sport. Proof. key_neq. Qed.
Lemma education_sport : education <> sport. Proof. key_neq. Qed.

Lemma increment_food a b c d :
  increment food (counters a b c d) = counters (a + 1) b c d.
Proof. unfold increment, counters. by rewrite alter_insert_eq. Qed.

Lemma increment_news a b c d :
  increment news (counters a b c d) = counters a (b + 1) c d.
Proof.
  unfold increment, counters.
  rewrite alter_insert_ne by (symmetry; apply food_news).
  by rewrite alter_insert_eq.
Qed.

Lemma increment_education a b c d :
  increment education (counters a b c d) = counters a b (c + 1) d.
Proof.
  unfold increment, counters.
  rewrite alter_insert_ne by (symmetry; apply food_education).
  rewrite alter_insert_ne by (symmetry; apply news_education).
  by rewrite alter_insert_eq.
Qed.

Lemma increment_sport a b c d :
  increment sport (counters a b c d) = counters a b c (d + 1).
Proof.
  unfold increment, counters.
  rewrite alter_insert_ne by (symmetry; apply food_sport).
  rewrite alter_insert_ne by (symmetry; apply news_sport).
  rewrite alter_insert_ne by (symmetry; apply education_sport).
  by rewrite alter_insert_eq.
Qed.

Lemma inject_S n : (inject_Z (Z.of_nat n) + 1)%Q = inject_Z (Z.of_nat (S n)).
Proof. rewrite Qplus_inject_1. f_equal. lia. Qed.

Lemma count_query_counters (a b c d : nat) q :
  count_query (counters (inject_Z (Z.of_nat a)) (inject_Z (Z.of_nat b))
                        (inject_Z (Z.of_nat c)) (inject_Z (Z.of_nat d))) q
  = counters (inject_Z (Z.of_nat (bump food q a)))
             (inject_Z (Z.of_nat (bump news q b)))
             (inject_Z (Z.of_nat (bump education q c)))
             (inject_Z (Z.of_nat (bump sport q d))).
Proof.
  unfold count_query, bump, triggered. cbn [triggers existsb].
  change (triggers food) with [utf8 "кафе"; utf8 "ресторан"; utf8 "їжа"].
  change (triggers news) with [utf8 "новини"; utf8 "news"].
  change (triggers education) with [utf8 "курс"; utf8 "навчання"; utf8 "python"].
  change (triggers sport) with [utf8 "спорт"; utf8 "фітнес"; utf8 "басейн"].
  cbn [existsb]. rewrite !orb_false_r, !orb_assoc. cbv zeta.
  destruct (contains q (utf8 "кафе") || contains q (utf8 "ресторан")
            || contains q (utf8 "їжа"));
    rewrite ?increment_food, ?inject_S;
  (destruct (contains q (utf8 "новини") || contains q (utf8 "news"));
    rewrite ?increment_news, ?inject_S);
  (destruct (contains q (utf8 "курс") || contains q (utf8 "навчання")
             || contains q (utf8 "python"));
    rewrite ?increment_education, ?inject_S);
  (destruct (contains q (utf8 "спорт") || contains q (utf8 "фітнес")
             || contains q (utf8 "басейн"));
    rewrite ?increment_sport, ?inject_S);
  reflexivity.
Qed.

Lemma history_counts_counters (context : UserContext) :
  history_counts context
  = counters
      (inject_Z (Z.of_nat (history_count food (query_history context))))
      (inject_Z (Z.of_nat (history_count news (query_history context))))
      (inject_Z (Z.of_nat (history_count education (query_history context))))
      (inject_Z (Z.of_nat (history_count sport (query_history context)))).
Proof.
  unfold history_counts.
  change (list_to_map _)
    with (counters (inject_Z (Z.of_nat 0)) (inject_Z (Z.of_nat 0))
                   (inject_Z (Z.of_nat 0)) (inject_Z (Z.of_nat 0))).
  assert (Hgen : forall history a b c d,
    fold_left count_query history
      (counters (inject_Z (Z.of_nat a)) (inject_Z (Z.of_nat b))
                (inject_Z (Z.of_nat c)) (inject_Z (Z.of_nat d)))
    = counters
        (inject_Z (Z.of_nat (a + history_count food history)))
        (inject_Z (Z.of_nat (b + history_count news history)))
        (inject_Z (Z.of_nat (c + history_count education history)))
        (inject_Z (Z.of_nat (d + history_count sport history)))).
  { induction history as [|q history IH]; intros a b c d; simpl.
    - unfold history_count. simpl. by rewrite !Nat.add_0_r.
    - rewrite count_query_counters, IH. unfold history_count, bump.
      rewrite !filter_cons.
      destruct (triggered food q), (triggered news q),
        (triggered education q), (triggered sport q);
        rewrite ?decide_True by done; rewrite ?decide_False by done;
        simpl length; rewrite ?Nat.add_succ_r; reflexivity. }
  apply (Hgen _ 0%nat 0%nat 0%nat 0%nat).
Qed.

(** The keys of the counter dictionary are the four categories: the
    subscripts of the first loop never fail. *)
Lemma history_counts_dom (context : UserContext) (cat : str) :
  is_Some (history_counts context !! cat) <-> cat ∈ [food; news; education; sport].
Proof.
  rewrite history_counts_counters. unfold counters.
  rewrite !lookup_insert_is_Some, lookup_empty, !elem_of_cons, elem_of_nil.
  split.
  - intros [->|[_ [->|[_ [->|[_ [->|[_ H]]]]]]]]; auto.
    by destruct H.
  - intros [->|[->|[->|[->|[]]]]].
    + by left.
    + right. split; [apply food_news|]. by left.
    + right. split; [apply food_education|]. right.
      split; [apply news_education|]. by left.
    + right. split; [apply food_sport|]. right.
      split; [apply news_sport|]. right.
      split; [apply education_sport|]. by left.
Qed.

Lemma weight_of_count (n : nat) :
  (fun v => if Qltb 0 v then (1 + v * 0.5)%Q else 1%Q) (inject_Z (Z.of_nat n))
  = history_weight n.
Proof.
  cbv beta. rewrite Qltb_0_inject. unfold history_weight.
  destruct n; [done|].
  destruct (Z.ltb_spec 0 (Z.of_nat (S n))); [done | lia].
Qed.

Lemma build_history_preferences_lookup self (context : UserContext) cat :
  build_history_preferences self context !! cat
  = if decide (cat ∈ [food; news; education; sport])
    then Some (history_weight (history_count cat (query_history context)))
    else None.
Proof.
  unfold build_history_preferences.
  rewrite history_counts_counters. unfold counters.
  rewrite !fmap_insert, fmap_empty, !weight_of_count.
  case_decide as Hcat.
  - rewrite !elem_of_cons, elem_of_nil in Hcat.
    destruct Hcat as [->|[->|[->|[->|[]]]]].
    + by rewrite lookup_insert_eq.
    + rewrite lookup_insert_ne by apply food_news. by rewrite lookup_insert_eq.
    + rewrite lookup_insert_ne by apply food_education.
      rewrite lookup_insert_ne by apply news_education.
      by rewrite lookup_insert_eq.
    + rewrite lookup_insert_ne by apply food_sport.
      rewrite lookup_insert_ne by apply news_sport.
      rewrite lookup_insert_ne by apply education_sport.
      by rewrite lookup_insert_eq.
  - rewrite !elem_of_cons, elem_of_nil in Hcat.
    rewrite !lookup_insert_ne, lookup_empty; [done|..];
      intros E; apply Hcat; rewrite <- E; auto.
Qed.

(** ** Explicit preferences *)

Lemma combine_preferences_lookup (history_prefs explicit : gmap str Q) cat :
  combine_preferences history_prefs explicit !! cat
  = match explicit !! cat with
    | Some w => Some (default 1%Q (history_prefs !! cat) * w)%Q
    | None => history_prefs !! cat
    end.
Proof.
  unfold combine_preferences. revert cat.
  apply (map_fold_weak_ind
           (fun (r m : gmap str Q) => forall cat,
                r !! cat = match m !! cat with
                           | Some w => Some (default 1%Q (history_prefs !! cat) * w)%Q
                           | None => history_prefs !! cat
                           end)).
  - intros cat. by rewrite lookup_empty.
  - intros i w m r Hi IH cat.
    destruct (decide (i = cat)) as [->|Hne].
    + rewrite !lookup_insert_eq, IH, Hi. done.
    + rewrite !lookup_insert_ne by done. apply IH.
Qed.

(** ** Context re-ranker *)

Section Reranker.

Variable lower : str -> str.

Lemma search_with_context_unfold self query context :
  search_with_context lower self query context
  = sort_reverse final_score
      (map (adapt lower context (combined self context))
           (search lower self query)).
Proof.
  unfold search_with_context.
  destruct (search lower self query) as [|item items]; [done|].
  by rewrite fold_left_append_all.
Qed.

Lemma adapt_final context prefs item :
  (final_score (adapt lower context prefs item)
   == base_score item
      * location_factor
          (matched_location (context_info (adapt lower context prefs item)))
      * time_factor (time_tag (doc item)) (time_segment context)
      * category_weight (context_info (adapt lower context prefs item)))%Q.
Proof.
  unfold adapt, location_factor, time_factor. simpl.
  destruct (decide (lower (location (doc item))
                    = lower (ctx_location context))) as [Hloc|Hloc].
  - rewrite (bool_decide_eq_true_2 _ Hloc).
    repeat case_decide; ring.
  - rewrite (bool_decide_eq_false_2 _ Hloc).
    repeat case_decide; ring.
Qed.

Lemma search_with_context_elem self query context r :
  r ∈ search_with_context lower self query context
  <-> exists item, item ∈ search lower self query
                   /\ r = adapt lower context (combined self context) item.
Proof.
  rewrite search_with_context_unfold, sort_reverse_perm, list_elem_of_fmap.
  split; intros (item & H1 & H2); by exists item.
Qed.

Lemma search_elem self query r :
  r ∈ search lower self query
  <-> exists d, d ∈ documents self /\ (0 < matching lower query d)%nat
                /\ r = scored lower query d.
Proof.
  rewrite search_unfold, sort_reverse_perm, list_elem_of_fmap.
  split.
  - intros (d & -> & [Hpos Hd]%list_elem_of_filter). by exists d.
  - intros (d & Hd & Hpos & ->). exists d. split; [done|].
    by apply list_elem_of_filter.
Qed.

End Reranker.

(** Two food queries and one news query in the history: food 2.0, news
    1.5, education and sport 1.0; an explicit food weight 2.0 on top of
    it: food 4.0. *)
Example history_weights_example :
  let context :=
    {| query_history := [utf8 "кафе поруч"; utf8 "новини дня";
                         utf8 "ресторан київ"];
       ctx_location := utf8 "Kyiv"; time_segment := any;
       preferences := {[ food := 2%Q ]} |} in
  let self := {| documents := [] |} in
  build_history_preferences self context !! food = Some 2.0%Q
  /\ build_history_preferences self context !! news = Some 1.5%Q
  /\ build_history_preferences self context !! education = Some 1%Q
  /\ build_history_preferences self context !! sport = Some 1%Q
  /\ (default 1 (combined self context !! food) == 4.0)%Q.
Proof. vm_compute. by repeat split. Qed.

(** ** Ranking in binary64 *)

(** *** The order of the floats *)

Section FloatOrder.

Import PrimFloat SpecFloat FloatOps.

Lemma SFcompare_place (f1 f2 : spec_float) :
  f1 <> S754_nan -> f2 <> S754_nan ->
  match SFcompare f1 f2 with
  | Some Lt => Binary64.before (Binary64.place f1) (Binary64.place f2)
  | Some Eq => Binary64.place f1 = Binary64.place f2
  | Some Gt => Binary64.before (Binary64.place f2) (Binary64.place f1)
  | None => False
  end.
Proof.
  intros H1 H2.
  destruct f1 as [s1|s1| |s1 m1 e1], f2 as [s2|s2| |s2 m2 e2];
    try congruence; try destruct s1; try destruct s2;
    unfold Binary64.before; cbn; try lia; try reflexivity.
  - destruct (Z.compare_spec e1 e2); try lia.
    change (Pos.compare_cont Eq m1 m2) with (Pos.compare m1 m2).
    destruct (Pos.compare_spec m1 m2); cbn; subst; try reflexivity; lia.
  - destruct (Z.compare_spec e1 e2); try lia.
    change (Pos.compare_cont Eq m1 m2) with (Pos.compare m1 m2).
    destruct (Pos.compare_spec m1 m2); cbn; subst; try reflexivity; lia.
Qed.

Lemma before_irrefl a : ~ Binary64.before a a.
Proof. unfold Binary64.before. lia. Qed.

Lemma before_asym a b : Binary64.before a b -> ~ Binary64.before b a.
Proof. unfold Binary64.before. lia. Qed.

Lemma before_trans a b c :
  Binary64.before a b -> Binary64.before b c -> Binary64.before a c.
Proof. unfold Binary64.before. lia. Qed.

Lemma SFcompare_nan_l f : SFcompare S754_nan f = None.
Proof. by destruct f. Qed.

Lemma SFcompare_nan_r f : SFcompare f S754_nan = None.
Proof. by destruct f. Qed.

Lemma is_nan_false x : is_nan x = false <-> Prim2SF x <> S754_nan.
Proof.
  unfold is_nan. rewrite FloatAxioms.eqb_spec. unfold SFeqb. split.
  - intros H Hnan. rewrite Hnan in H. discriminate H.
  - intros H. pose proof (SFcompare_place _ _ H H) as Hc.
    destruct (SFcompare (Prim2SF x) (Prim2SF x)) as [[]|]; try done;
      by apply before_irrefl in Hc.
Qed.

(** What the three comparisons say of two floats. *)
Lemma ltb_place x y :
  (x <? y)%float = true
  <-> is_nan x = false /\ is_nan y = false
      /\ Binary64.before (Binary64.place (Prim2SF x))
                         (Binary64.place (Prim2SF y)).
Proof.
  rewrite FloatAxioms.ltb_spec, !is_nan_false. unfold SFltb. split.
  - intros H.
    assert (Hx : Prim2SF x <> S754_nan).
    { intros E. rewrite E, SFcompare_nan_l in H. discriminate H. }
    assert (Hy : Prim2SF y <> S754_nan).
    { intros E. rewrite E, SFcompare_nan_r in H. discriminate H. }
    pose proof (SFcompare_place _ _ Hx Hy) as Hc.
    destruct (SFcompare (Prim2SF x) (Prim2SF y)) as [[]|]; done.
  - intros (Hx & Hy & Hb). pose proof (SFcompare_place _ _ Hx Hy) as Hc.
    destruct (SFcompare (Prim2SF x) (Prim2SF y)) as [[]|]; try done.
    + rewrite Hc in Hb. by apply before_irrefl in Hb.
    + by apply before_asym in Hb.
Qed.

Lemma eqb_place x y :
  (x =? y)%float = true
  <-> is_nan x = false /\ is_nan y = false
      /\ Binary64.place (Prim2SF x) = Binary64.place (Prim2SF y).
Proof.
  rewrite FloatAxioms.eqb_spec, !is_nan_false. unfold SFeqb. split.
  - intros H.
    assert (Hx : Prim2SF x <> S754_nan).
    { intros E. rewrite E, SFcompare_nan_l in H. discriminate H. }
    assert (Hy : Prim2SF y <> S754_nan).
    { intros E. rewrite E, SFcompare_nan_r in H. discriminate H. }
    pose proof (SFcompare_place _ _ Hx Hy) as Hc.
    destruct (SFcompare (Prim2SF x) (Prim2SF y)) as [[]|]; done.
  - intros (Hx & Hy & Hb). pose proof (SFcompare_place _ _ Hx Hy) as Hc.
    destruct (SFcompare (Prim2SF x) (Prim2SF y)) as [[]|]; try done.
    + rewrite Hb in Hc. by apply before_irrefl in Hc.
    + rewrite Hb in Hc. by apply before_irrefl in Hc.
Qed.

Lemma leb_place x y :
  (x <=? y)%float = true
  <-> is_nan x = false /\ is_nan y = false
      /\ ~ Binary64.before (Binary64.place (Prim2SF y))
                           (Binary64.place (Prim2SF x)).
Proof.
  rewrite FloatAxioms.leb_spec, !is_nan_false. unfold SFleb. split.
  - intros H.
    assert (Hx : Prim2SF x <> S754_nan).
    { intros E. rewrite E, SFcompare_nan_l in H. discriminate H. }
    assert (Hy : Prim2SF y <> S754_nan).
    { intros E. rewrite E, SFcompare_nan_r in H. discriminate H. }
    pose proof (SFcompare_place _ _ Hx Hy) as Hc.
    destruct (SFcompare (Prim2SF x) (Prim2SF y)) as [[]|]; try done.
    + split; [done|]. split; [done|]. rewrite Hc. apply before_irrefl.
    + split; [done|]. split; [done|]. by apply before_asym.
  - intros (Hx & Hy & Hb). pose proof (SFcompare_place _ _ Hx Hy) as Hc.
    by destruct (SFcompare (Prim2SF x) (Prim2SF y)) as [[]|].
Qed.

(** Without NaN, [<=] is the negation of [>]. *)
Lemma leb_ltb x y :
  is_nan x = false -> is_nan y = false ->
  (x <=? y)%float = negb (y <? x)%float.
Proof.
  intros Hx Hy. apply eq_true_iff_eq.
  rewrite leb_place, negb_true_iff. split.
  - intros (_ & _ & Hb). apply not_true_iff_false.
    rewrite ltb_place. tauto.
  - intros Hlt%not_true_iff_false. rewrite ltb_place in Hlt. tauto.
Qed.

Lemma ltb_leb x y : (x <? y)%float = true -> (x <=? y)%float = true.
Proof.
  rewrite ltb_place, leb_place. intros (Hx & Hy & Hb).
  split; [done|]. split; [done|]. by apply before_asym.
Qed.

(** The places of the floats are totally ordered. *)
Lemma before_total a b : Binary64.before a b \/ a = b \/ Binary64.before b a.
Proof.
  destruct a as [[a1 a2] a3], b as [[b1 b2] b3]. unfold Binary64.before.
  cbn [fst snd].
  destruct (decide (a1 = b1)) as [->|]; [|lia].
  destruct (decide (a2 = b2)) as [->|]; [|lia].
  destruct (decide (a3 = b3)) as [->|]; [|lia].
  right. by left.
Qed.

Lemma leb_trans x y z :
  (x <=? y)%float = true -> (y <=? z)%float = true -> (x <=? z)%float = true.
Proof.
  rewrite !leb_place. intros (Hx & Hy & Hxy) (_ & Hz & Hyz).
  split; [done|]. split; [done|]. intros Hzx.
  destruct (before_total (Binary64.place (Prim2SF x))
                         (Binary64.place (Prim2SF y))) as [H|[H|H]].
  - apply Hyz. by apply before_trans with (Binary64.place (Prim2SF x)).
  - apply Hyz. by rewrite <- H.
  - done.
Qed.

Lemma ltb_tie x y k :
  (x <? y)%float = true -> Binary64.tie x k -> Binary64.tie y k -> False.
Proof.
  unfold Binary64.tie. rewrite ltb_place, !eqb_place.
  intros (_ & _ & Hb) (_ & _ & Hx) (_ & _ & Hy).
  rewrite Hx, Hy in Hb. by apply before_irrefl in Hb.
Qed.

Lemma ltb_number x y : (x <? y)%float = true -> is_nan y = false.
Proof. rewrite ltb_place. tauto. Qed.

End FloatOrder.

(** *** Sorting on float keys *)

Section FloatSorting.

Import PrimFloat.

Context {A : Type} (key : A -> float).

Lemma float_insert_reverse_perm x l :
  Binary64.insert_reverse key x l ≡ₚ x :: l.
Proof.
  induction l as [|y l IH]; simpl; [done|].
  destruct (key x <? key y)%float; [|done].
  rewrite IH. apply Permutation_swap.
Qed.

Lemma float_sort_reverse_perm l : Binary64.sort_reverse key l ≡ₚ l.
Proof.
  induction l as [|x l IH]; simpl; [done|].
  rewrite float_insert_reverse_perm. by rewrite IH.
Qed.

Lemma float_insert_reverse_descending x l :
  is_nan (key x) = false -> Binary64.numbers key l ->
  Binary64.descending key l ->
  Binary64.descending key (Binary64.insert_reverse key x l).
Proof.
  unfold Binary64.descending, Binary64.numbers. intros Hx Hnum Hsorted.
  induction Hsorted as [|y l Hl IH Hy]; simpl.
  - repeat constructor.
  - apply Forall_cons in Hnum as [Hny Hnum].
    destruct (key x <? key y)%float eqn:E.
    + constructor; [by apply IH|].
      rewrite float_insert_reverse_perm. constructor; [|done].
      by apply ltb_leb.
    + assert (Hyx : (key y <=? key x)%float = true)
        by (by rewrite leb_ltb, E).
      constructor; [by constructor|].
      constructor; [done|]. eapply Forall_impl; [exact Hy|].
      intros z Hz. simpl in Hz. by apply leb_trans with (key y).
Qed.

Lemma float_sort_reverse_descending l :
  Binary64.numbers key l ->
  Binary64.descending key (Binary64.sort_reverse key l).
Proof.
  unfold Binary64.numbers.
  induction l as [|x l IH]; intros Hnum; simpl; [constructor|].
  apply Forall_cons in Hnum as [Hx Hnum].
  apply float_insert_reverse_descending; [done| |by apply IH].
  unfold Binary64.numbers. by rewrite float_sort_reverse_perm.
Qed.

(** Stability: the elements of one key keep their order. *)
Lemma float_insert_reverse_stable k x l :
  filter (fun a => Binary64.tie (key a) k) (Binary64.insert_reverse key x l)
  = filter (fun a => Binary64.tie (key a) k) (x :: l).
Proof.
  induction l as [|y l IH]; simpl; [done|].
  destruct (key x <? key y)%float eqn:E; [|done].
  rewrite (filter_cons _ y (Binary64.insert_reverse key x l)), IH.
  rewrite !(filter_cons _ x), (filter_cons _ y l).
  destruct (decide (Binary64.tie (key x) k)) as [Hx|Hx]; [|done].
  destruct (decide (Binary64.tie (key y) k)) as [Hy|Hy]; [|done].
  exfalso. by apply (ltb_tie _ _ _ E Hx Hy).
Qed.

(** A descending list of two elements or more has no NaN key: each
    key is compared with another. *)
Lemma float_descending_numbers l :
  (2 <= length l)%nat -> Binary64.descending key l -> Binary64.numbers key l.
Proof.
  destruct l as [|a [|b l]]; cbn [length]; [lia | lia |]. intros _ H.
  apply StronglySorted_inv in H as [_ H]. unfold Binary64.numbers.
  constructor.
  - apply Forall_cons in H as [H _]. apply leb_place in H. tauto.
  - eapply Forall_impl; [exact H|]. intros z Hz. simpl in Hz.
    apply leb_place in Hz. tauto.
Qed.

Lemma float_sort_reverse_stable k l :
  filter (fun a => Binary64.tie (key a) k) (Binary64.sort_reverse key l)
  = filter (fun a => Binary64.tie (key a) k) l.
Proof.
  induction l as [|x l IH]; simpl; [done|].
  rewrite float_insert_reverse_stable, !filter_cons. by rewrite IH.
Qed.

End FloatSorting.

(** *** The engines *)

Section FloatEngines.

Import PrimFloat.

Variable lower : str -> str.

Lemma float_score_tokens_counted text tokens :
  Binary64.score_tokens text tokens
  = Binary64.counted
      (length (filter (fun qt => contains text qt = true) tokens)).
Proof.
  unfold Binary64.score_tokens, Binary64.counted.
  generalize 0.0%float.
  induction tokens as [|t tokens IH]; intros score; simpl; [done|].
  rewrite filter_cons. destruct (contains text t) eqn:E.
  - rewrite decide_True by done. cbn [length].
    by rewrite IH, Nat.iter_succ_r.
  - rewrite decide_False by done. apply IH.
Qed.

Lemma float_search_unfold self query :
  Binary64.search lower self query
  = Binary64.sort_reverse Binary64.base_score
      (map (Binary64.scored lower query)
           (filter (Binary64.found lower query) (documents self))).
Proof.
  unfold Binary64.search. f_equal.
  rewrite (fold_left_append
             (fun d => (0 <? Binary64.score_tokens (searchable lower d)
                                                   (tokenize lower query))%float)
             (fun d => {| Binary64.doc := d;
                          Binary64.base_score :=
                            Binary64.score_tokens (searchable lower d)
                                                  (tokenize lower query) |})).
  cbn [app].
  rewrite (list_filter_iff _ (Binary64.found lower query)).
  - apply map_ext. intros d. unfold Binary64.scored, matching.
    rewrite float_score_tokens_counted. reflexivity.
  - intros d. unfold Binary64.found, matching.
    rewrite float_score_tokens_counted. reflexivity.
Qed.

Lemma float_search_with_context_unfold self query context :
  Binary64.search_with_context lower self query context
  = Binary64.sort_reverse Binary64.final_score
      (map (Binary64.adapt lower context (Binary64.combined self context))
           (Binary64.search lower self query)).
Proof.
  unfold Binary64.search_with_context.
  destruct (Binary64.search lower self query) as [|item items]; [done|].
  by rewrite fold_left_append_all.
Qed.

(** A base score is never NaN: it has passed [score > 0]. *)
Lemma float_search_numbers self query :
  Binary64.numbers Binary64.base_score
    (map (Binary64.scored lower query)
         (filter (Binary64.found lower query) (documents self))).
Proof.
  apply Forall_forall. intros r (d & -> & [Hd _]%list_elem_of_filter)%list_elem_of_fmap.
  exact (ltb_number _ _ Hd).
Qed.

End FloatEngines.

(** ** The claims on scoring and ranking *)

(** C4: the base score of a document is the number of query tokens,
    duplicates counted, that occur as a substring of the lowercased
    title, space, content; the results are exactly the documents with a
    positive count, each with that count as its score; a query without
    tokens gives no result. *)
Theorem search_base_score (lower : str -> str) (self : BasicSearchEngine)
    (query : str) :
  (forall text sub,
      contains text sub = true <-> exists pre post, text = pre ++ sub ++ post)
  /\ (forall d,
         matching lower query d
         = length
             (filter (fun qt =>
                        contains (lower (title d ++ [space] ++ content d)) qt
                        = true)
                     (tokenize lower query)))
  /\ search lower self query
     ≡ₚ map (fun d =>
               {| doc := d;
                  base_score := inject_Z (Z.of_nat (matching lower query d)) |})
            (filter (fun d => (0 < matching lower query d)%nat)
                    (documents self))
  /\ Forall (fun r => (0 < base_score r)%Q) (search lower self query)
  /\ (tokenize lower query = [] -> search lower self query = []).
Proof.
  split; [apply contains_spec|]. split; [done|].
  split; [rewrite search_unfold; apply sort_reverse_perm|].
  split.
  - apply Forall_forall. intros r (d & _ & Hpos & ->)%search_elem. simpl.
    change 0%Q with (inject_Z 0). rewrite <- Zlt_Qlt. lia.
  - intros Hnone. rewrite search_unfold.
    replace (filter _ (documents self)) with (@nil Document); [done|].
    induction (documents self) as [|d docs IH]; [done|].
    rewrite filter_cons_False; [done|].
    unfold matching. rewrite Hnone. simpl. lia.
Qed.

Lemma search_base_score_witness :
  search simple_lower {| documents := [cafe_doc] |} (utf8 ",;!") = [].
Proof.
  apply (search_base_score simple_lower {| documents := [cafe_doc] |}
                           (utf8 ",;!")).
  by vm_compute.
Defined.

(** C5, amended: the base results come in descending order of base
    score, the documents of one score in the order of the document list:
    so it is for the exact counts, and so it is for the binary64 scores
    that the program compares.  The context results come in descending
    order of their binary64 final score, the results of one final score
    in the order of the base results, and those that also have the same
    base score in the order of the document list, provided that no final
    score is NaN; with a NaN among two final scores or more, the
    results are not in descending order. *)
Theorem results_sorted (lower : str -> str) (self : ContextSearchEngine)
    (query : str) (context : Binary64.UserContext) :
  StronglySorted (fun a b => (base_score b <= base_score a)%Q)
                 (search lower self query)
  /\ (forall n : nat,
         map doc
             (filter (fun r => (base_score r == inject_Z (Z.of_nat (S n)))%Q)
                     (search lower self query))
         = filter (fun d => matching lower query d = S n) (documents self))
  /\ Binary64.descending Binary64.base_score (Binary64.search lower self query)
  /\ (forall k : PrimFloat.float,
         map Binary64.doc
             (filter (fun r => Binary64.tie (Binary64.base_score r) k)
                     (Binary64.search lower self query))
         = filter (fun d =>
                     Binary64.found lower query d
                     /\ Binary64.tie
                          (Binary64.counted (matching lower query d)) k)
                  (documents self))
  /\ (Binary64.numbers Binary64.final_score
        (Binary64.search_with_context lower self query context) ->
      Binary64.descending Binary64.final_score
        (Binary64.search_with_context lower self query context)
      /\ (forall k : PrimFloat.float,
             filter (fun r => Binary64.tie (Binary64.final_score r) k)
                    (Binary64.search_with_context lower self query context)
             = filter (fun r => Binary64.tie (Binary64.final_score r) k)
                      (map (Binary64.adapt lower context
                              (Binary64.combine_preferences
                                 (Binary64.build_history_preferences
                                    self context)
                                 (Binary64.preferences context)))
                           (Binary64.search lower self query)))
      /\ (forall k j : PrimFloat.float,
             map Binary64.a_doc
                 (filter (fun r =>
                            Binary64.tie (Binary64.a_base_score r) j
                            /\ Binary64.tie (Binary64.final_score r) k)
                         (Binary64.search_with_context lower self query
                                                       context))
             = filter (fun d =>
                         Binary64.found lower query d
                         /\ Binary64.tie
                              (Binary64.counted (matching lower query d)) j
                         /\ Binary64.tie
                              (Binary64.final_score
                                 (Binary64.adapt lower context
                                    (Binary64.combine_preferences
                                       (Binary64.build_history_preferences
                                          self context)
                                       (Binary64.preferences context))
                                    {| Binary64.doc := d;
                                       Binary64.base_score :=
                                         Binary64.counted
                                           (matching lower query d) |}))
                              k)
                      (documents self)))
  /\ ((2 <= length (Binary64.search_with_context lower self query context))%nat ->
      Binary64.descending Binary64.final_score
        (Binary64.search_with_context lower self query context) ->
      Binary64.numbers Binary64.final_score
        (Binary64.search_with_context lower self query context)).
Proof.
  split; [rewrite search_unfold; apply sort_reverse_descending|].
  split.
  { intros n. rewrite search_unfold, sort_reverse_stable.
    rewrite (filter_map_section (scored lower query) doc) by done.
    rewrite list_filter_filter. apply list_filter_iff. intros d. simpl.
    rewrite inject_Z_injective. lia. }
  split.
  { rewrite float_search_unfold. apply float_sort_reverse_descending.
    apply float_search_numbers. }
  split.
  { intros k. rewrite float_search_unfold, float_sort_reverse_stable.
    rewrite (filter_map_section (Binary64.scored lower query) Binary64.doc)
      by done.
    rewrite list_filter_filter. apply list_filter_iff. intros d.
    unfold Binary64.scored. cbn [Binary64.base_score]. tauto. }
  split; [|apply float_descending_numbers].
  fold (Binary64.combined self context).
  set (adapt_ := Binary64.adapt lower context (Binary64.combined self context)).
  rewrite float_search_with_context_unfold. fold adapt_. intros Hnum.
  split.
  { apply float_sort_reverse_descending. unfold Binary64.numbers in *.
    by rewrite float_sort_reverse_perm in Hnum. }
  split; [intros k; apply float_sort_reverse_stable|].
  intros k j.
  rewrite <- (list_filter_filter
                (fun r => Binary64.tie (Binary64.a_base_score r) j)
                (fun r => Binary64.tie (Binary64.final_score r) k)).
  rewrite float_sort_reverse_stable.
  rewrite list_filter_filter, filter_map, map_map.
  change (fun x => Binary64.a_doc (adapt_ x)) with Binary64.doc.
  transitivity
    (map Binary64.doc
       (filter (fun r => Binary64.tie (Binary64.final_score (adapt_ r)) k)
          (filter (fun r => Binary64.tie (Binary64.base_score r) j)
                  (Binary64.search lower self query)))).
  { f_equal. rewrite list_filter_filter. apply list_filter_iff.
    intros r. unfold adapt_, Binary64.adapt. cbn [Binary64.a_base_score].
    tauto. }
  rewrite float_search_unfold, float_sort_reverse_stable, !filter_map, map_map.
  rewrite !list_filter_filter.
  rewrite (map_ext _ (fun d => d)) by done. rewrite map_id.
  apply list_filter_iff. intros d. unfold Binary64.scored.
  cbn [Binary64.base_score]. tauto.
Qed.

Lemma results_sorted_witness :
  Binary64.descending Binary64.final_score
    (Binary64.search_with_context simple_lower
       {| documents := [near_doc; food_doc] |} (utf8 "green tea house")
       (morning_context64 ∅)).
Proof.
  apply (results_sorted simple_lower {| documents := [near_doc; food_doc] |}
           (utf8 "green tea house") (morning_context64 ∅)).
  vm_compute. repeat constructor.
Defined.

(** Two results with the same final score and different base scores come
    in the order of the base scores, against the order of the document
    list.  The scores are 1.0 * 1.0 * 2.0 and 2.0 * 1.0 * 1.0: no
    rounding is involved. *)
Lemma final_tie_not_in_document_order :
  let first := {| doc_id := 1; title := utf8 "tea room"; content := utf8 "";
                  location := utf8 "Lviv"; category := food; time_tag := any |} in
  let second := {| doc_id := 2; title := utf8 "tea house"; content := utf8 "";
                   location := utf8 "Lviv"; category := utf8 "drinks";
                   time_tag := any |} in
  let context :=
    {| Binary64.query_history := []; Binary64.ctx_location := utf8 "Kyiv";
       Binary64.time_segment := morning;
       Binary64.preferences := {[ food := PrimFloat.two ]} |} in
  exists r1 r2,
    Binary64.search_with_context simple_lower
      {| documents := [first; second] |} (utf8 "tea house") context
    = [r1; r2]
    /\ Binary64.a_doc r1 = second /\ Binary64.a_doc r2 = first
    /\ Binary64.final_score r1 = PrimFloat.two
    /\ Binary64.final_score r2 = PrimFloat.two
    /\ Binary64.tie (Binary64.final_score r1) (Binary64.final_score r2).
Proof.
  intros first second context. eexists _, _.
  split; [vm_compute; reflexivity|].
  split; [reflexivity|]. split; [reflexivity|].
  split; [vm_compute; reflexivity|]. split; vm_compute; reflexivity.
Qed.

Section RankingExamples.

Import PrimFloat.

(** Rounding decides an order.  Both documents score 3 * 1.5 * 0.9 as
    rationals, and the exact model leaves them in the order of the
    document list; the program multiplies (3.0 * 1.5) * 0.9 for the
    first and (3.0 * 0.9) * 1.5 for the second, and the second product
    is one unit in the last place above the first. *)
Example rounding_decides_order :
  let self := {| documents := [near_doc; food_doc] |} in
  let query := utf8 "green tea house" in
  (exists r1 r2,
      search_with_context simple_lower self query morning_context = [r1; r2]
      /\ a_doc r1 = near_doc /\ a_doc r2 = food_doc
      /\ (final_score r1 == 4.05)%Q /\ (final_score r2 == 4.05)%Q)
  /\ (exists r1 r2,
         Binary64.search_with_context simple_lower self query
                                      (morning_context64 ∅)
         = [r1; r2]
         /\ Binary64.a_doc r1 = food_doc /\ Binary64.a_doc r2 = near_doc
         /\ Binary64.final_score r1 = 4.050000000000001%float
         /\ Binary64.final_score r2 = 4.05%float
         /\ (Binary64.final_score r2 <? Binary64.final_score r1)%float = true).
Proof.
  intros self query. split.
  - eexists _, _. split; [vm_compute; reflexivity|].
    split; [reflexivity|]. split; [reflexivity|].
    split; vm_compute; reflexivity.
  - eexists _, _. split; [vm_compute; reflexivity|].
    split; [reflexivity|]. split; [reflexivity|].
    split; [vm_compute; reflexivity|]. split; vm_compute; reflexivity.
Qed.

(** A NaN among the explicit preferences: the final score of the food
    document is NaN, and no order of the two results is descending. *)
Example nan_weight_not_descending :
  let self := {| documents := [near_doc; food_doc] |} in
  let context := morning_context64 {[ food := nan ]} in
  exists r1 r2,
    Binary64.search_with_context simple_lower self (utf8 "green tea house")
                                 context
    = [r1; r2]
    /\ (is_nan (Binary64.final_score r1) || is_nan (Binary64.final_score r2)
        = true)
    /\ ~ Binary64.descending Binary64.final_score [r1; r2]
    /\ ~ Binary64.descending Binary64.final_score [r2; r1].
Proof.
  intros self context. eexists _, _.
  split; [vm_compute; reflexivity|]. split; [vm_compute; reflexivity|].
  split; intros H; apply StronglySorted_inv in H as [_ H];
    apply Forall_cons in H as [H _]; vm_compute in H; discriminate H.
Qed.

(** The scores of the program carry the rounding of its multiplications:
    the end-to-end example, 2.925 in exact arithmetic, gives
    2.9250000000000003, and three food queries on a matching document of
    base score 3 give 14.625000000000002, above the exact 14.625. *)
Example rounded_scores :
  (exists r,
      Binary64.search_with_context simple_lower
        {| documents := [cafe_doc] |} (utf8 "кафе")
        {| Binary64.query_history := [utf8 "кафе хороше"];
           Binary64.ctx_location := utf8 "Kyiv";
           Binary64.time_segment := any;
           Binary64.preferences := ∅ |}
      = [r]
      /\ Binary64.a_base_score r = 1.0%float
      /\ Binary64.category_weight (Binary64.context_info r) = 1.5%float
      /\ Binary64.final_score r = 2.9250000000000003%float)
  /\ (1.0 * 1.5 * 1.3 * 1.5 = 2.9250000000000003)%float
  /\ (3.0 * 1.5 * 1.3 * 2.5 = 14.625000000000002)%float
  /\ (14.625 <? 3.0 * 1.5 * 1.3 * 2.5)%float = true.
Proof.
  split.
  - eexists. split; [vm_compute; reflexivity|].
    split; [vm_compute; reflexivity|]. split; vm_compute; reflexivity.
  - split; [|split]; vm_compute; reflexivity.
Qed.

End RankingExamples.

(** C6: each of the four categories gets the history weight
    [1.0 + count * 0.5] when its count of history queries holding one of
    its triggers is positive and [1.0] otherwise, and no other category
    gets one; an explicit preference multiplies the history weight of its
    category, or [1.0] when the category has none; a category without an
    explicit preference keeps its history weight; the merged weight, or
    [1.0] in its absence, is the category weight of every result. *)
Theorem preference_weights (lower : str -> str) (self : ContextSearchEngine)
    (query : str) (context : UserContext) :
  let history_prefs := build_history_preferences self context in
  let combined_prefs :=
    combine_preferences history_prefs (preferences context) in
  (triggers food = [utf8 "кафе"; utf8 "ресторан"; utf8 "їжа"]
   /\ triggers news = [utf8 "новини"; utf8 "news"]
   /\ triggers education = [utf8 "курс"; utf8 "навчання"; utf8 "python"]
   /\ triggers sport = [utf8 "спорт"; utf8 "фітнес"; utf8 "басейн"])
  /\ (forall cat q,
         triggered cat q = true
         <-> exists t, t ∈ triggers cat
                       /\ exists pre post, q = pre ++ t ++ post)
  /\ Forall (fun cat =>
               let count :=
                 length (filter (fun q => triggered cat q = true)
                                (query_history context)) in
               history_prefs !! cat
               = Some (if (0 <? count)%nat
                       then (1 + inject_Z (Z.of_nat count) * 0.5)%Q
                       else 1%Q))
            [food; news; education; sport]
  /\ (forall cat, cat ∉ [food; news; education; sport] ->
                  history_prefs !! cat = None)
  /\ (forall cat w, preferences context !! cat = Some w ->
                    combined_prefs !! cat
                    = Some (default 1%Q (history_prefs !! cat) * w)%Q)
  /\ (forall cat, preferences context !! cat = None ->
                  combined_prefs !! cat = history_prefs !! cat)
  /\ Forall (fun r => category_weight (context_info r)
                      = default 1%Q (combined_prefs !! category (a_doc r)))
            (search_with_context lower self query context).
Proof.
  intros history_prefs combined_prefs.
  split; [by repeat split|].
  split.
  { intros cat q. unfold triggered. rewrite existsb_exists. split.
    - intros (t & Ht%list_elem_of_In & Hc%contains_spec). by exists t.
    - intros (t & Ht%list_elem_of_In & Hc%contains_spec). by exists t. }
  split.
  { apply Forall_forall. intros cat Hcat. subst history_prefs. cbv zeta.
    rewrite build_history_preferences_lookup, decide_True by done. done. }
  split.
  { intros cat Hcat. subst history_prefs.
    by rewrite build_history_preferences_lookup, decide_False. }
  split.
  { intros cat w Hw. subst combined_prefs.
    by rewrite combine_preferences_lookup, Hw. }
  split.
  { intros cat Hw. subst combined_prefs.
    by rewrite combine_preferences_lookup, Hw. }
  apply Forall_forall. intros r (item & _ & ->)%search_with_context_elem.
  done.
Qed.

(** C2, amended: the final score of every result is its base score times
    the location factor, the time factor and the category weight, and the
    time factor is 1.3 if the document's time_tag equals the context's
    time_segment, otherwise 1.0 if the time_tag is any, otherwise 0.9.  A
    document whose time_tag is any gets 1.0 for every time_segment other
    than any, and 1.3 when the time_segment is any too. *)
Theorem time_multiplier (lower : str -> str) (self : ContextSearchEngine)
    (query : str) (context : UserContext) :
  Forall (fun r =>
            final_score r
            == a_base_score r
               * (if matched_location (context_info r) then 1.5 else 1)
               * time_factor (time_tag (a_doc r)) (time_segment context)
               * category_weight (context_info r))%Q
         (search_with_context lower self query context)
  /\ (forall tag segment : str,
         time_factor tag segment
         = if decide (tag = segment) then 1.3%Q
           else if decide (tag = any) then 1.0%Q
           else 0.9%Q)
  /\ (forall segment : str,
         time_factor any segment
         = if decide (segment = any) then 1.3%Q else 1.0%Q).
Proof.
  split.
  { apply Forall_forall. intros r (item & _ & ->)%search_with_context_elem.
    apply adapt_final. }
  split; [done|].
  intros segment. unfold time_factor.
  repeat case_decide; congruence.
Qed.

(** A document tagged any, searched with the time_segment any: the time
    step multiplies by 1.3, not by 1.0. *)
Lemma time_multiplier_any_any :
  exists r,
    search_with_context simple_lower {| documents := [tea_doc any] |}
                        (utf8 "tea") (plain_context any) = [r]
    /\ time_tag (a_doc r) = any
    /\ (final_score r == 1.3)%Q
    /\ ~ (final_score r
          == a_base_score r
             * (if matched_location (context_info r) then 1.5 else 1)
             * 1.0 * category_weight (context_info r))%Q.
Proof.
  eexists. split; [by vm_compute|]. split; [done|]. split; [done|].
  by vm_compute.
Qed.

(** C3, amended: a time_segment that is not one of morning, evening, any
    is not rejected: there is one result per base result; it is never
    equal to the time_tag of a document tagged any, morning or evening, so
    the time factor of such a document is 1.0 if it is tagged any and 0.9
    if it is tagged morning or evening, and its final score is the base
    score times the location factor, that factor and the category
    weight. *)
Theorem invalid_time_segment (lower : str -> str) (self : ContextSearchEngine)
    (query : str) (context : UserContext)
    (Hinvalid : time_segment context ∉ [morning; evening; any]) :
  length (search_with_context lower self query context)
  = length (search lower self query)
  /\ Forall (fun r =>
               (time_tag (a_doc r) = any ->
                final_score r
                == a_base_score r
                   * (if matched_location (context_info r) then 1.5 else 1)
                   * 1.0 * category_weight (context_info r))
               /\ (time_tag (a_doc r) ∈ [morning; evening] ->
                   final_score r
                   == a_base_score r
                      * (if matched_location (context_info r) then 1.5 else 1)
                      * 0.9 * category_weight (context_info r)))%Q
            (search_with_context lower self query context).
Proof.
  split.
  { rewrite search_with_context_unfold, sort_reverse_perm.
    apply length_map. }
  apply Forall_forall. intros r (item & _ & ->)%search_with_context_elem.
  pose proof (adapt_final lower context (combined self context) item) as Hf.
  change (a_doc (adapt lower context (combined self context) item))
    with (doc item).
  change (a_base_score (adapt lower context (combined self context) item))
    with (base_score item).
  unfold location_factor, time_factor in Hf.
  rewrite !elem_of_cons, elem_of_nil in Hinvalid.
  split; intros Htag.
  - rewrite Htag in Hf.
    rewrite decide_False in Hf by (intros E; symmetry in E; tauto).
    by rewrite decide_True in Hf.
  - rewrite !elem_of_cons, elem_of_nil in Htag.
    rewrite decide_False in Hf by (intros E; rewrite <- E in Hinvalid; tauto).
    rewrite decide_False in Hf; [done|].
    destruct Htag as [->|[->|[]]]; key_neq.
Qed.

Lemma invalid_time_segment_witness :
  Forall (fun r =>
            (time_tag (a_doc r) = any ->
             final_score r
             == a_base_score r
                * (if matched_location (context_info r) then 1.5 else 1)
                * 1.0 * category_weight (context_info r))
            /\ (time_tag (a_doc r) ∈ [morning; evening] ->
                final_score r
                == a_base_score r
                   * (if matched_location (context_info r) then 1.5 else 1)
                   * 0.9 * category_weight (context_info r)))%Q
         (search_with_context simple_lower
            {| documents := [tea_doc morning; tea_doc any] |}
            (utf8 "tea") (plain_context (utf8 "night"))).
Proof.
  apply (invalid_time_segment simple_lower
           {| documents := [tea_doc morning; tea_doc any] |}
           (utf8 "tea") (plain_context (utf8 "night"))).
  apply (bool_decide_unpack _). by vm_compute.
Defined.

(** An unknown time_segment and a document tagged morning: the time step
    multiplies by 0.9, the final score is not the product of the base
    score, the location factor and the category weight. *)
Lemma invalid_time_segment_penalty :
  exists r,
    (utf8 "night" ∉ [morning; evening; any])
    /\ search_with_context simple_lower {| documents := [tea_doc morning] |}
                           (utf8 "tea") (plain_context (utf8 "night")) = [r]
    /\ (final_score r == 0.9)%Q
    /\ ~ (final_score r
          == a_base_score r
             * (if matched_location (context_info r) then 1.5 else 1)
             * category_weight (context_info r))%Q.
Proof.
  eexists. split; [apply (bool_decide_unpack _); by vm_compute|].
  split; [by vm_compute|]. split; [done|]. by vm_compute.
Qed.

(** ** The end-to-end example *)

Lemma cafe_search (lower : str -> str)
    (Hquery : lower (utf8 "кафе") = utf8 "кафе")
    (Htext : lower (utf8 "Кафе Перлина" ++ [space] ++ utf8 "смачна їжа")
             = utf8 "кафе перлина смачна їжа") :
  search lower {| documents := [cafe_doc] |} (utf8 "кафе")
  = [{| doc := cafe_doc; base_score := 1 |}].
Proof.
  unfold search. rewrite tokenize_unfold, Hquery.
  cbn [documents fold_left].
  change (title cafe_doc ++ [space] ++ content cafe_doc)
    with (utf8 "Кафе Перлина" ++ [space] ++ utf8 "смачна їжа").
  rewrite Htext. by vm_compute.
Qed.

(** C1, amended: for the one-document corpus and the context of the
    example, the query returns exactly one result, with base score 1.0,
    matched location (factor 1.5), food weight 1.5 and time factor 1.3,
    because the document's time_tag any equals the context's time_segment
    any; the final score is 1.0 * 1.5 * 1.3 * 1.5, which is 2.925 in exact
    arithmetic, and not 2.25. *)
Theorem cafe_example (lower : str -> str)
    (Hquery : lower (utf8 "кафе") = utf8 "кафе")
    (Htext : lower (utf8 "Кафе Перлина" ++ [space] ++ utf8 "смачна їжа")
             = utf8 "кафе перлина смачна їжа") :
  exists r,
    search_with_context lower {| documents := [cafe_doc] |} (utf8 "кафе")
                        cafe_context = [r]
    /\ a_doc r = cafe_doc
    /\ a_base_score r = 1%Q
    /\ matched_location (context_info r) = true
    /\ time_factor (time_tag (a_doc r)) (time_segment cafe_context) = 1.3%Q
    /\ category_weight (context_info r) = 1.5%Q
    /\ (final_score r == 1.0 * 1.5 * 1.3 * 1.5)%Q
    /\ (final_score r == 2.925)%Q
    /\ ~ (final_score r == 2.25)%Q.
Proof.
  eexists. split.
  { rewrite search_with_context_unfold, (cafe_search lower Hquery Htext).
    reflexivity. }
  unfold adapt. cbn [a_doc a_base_score final_score context_info doc
                     base_score matched_location category_weight].
  rewrite bool_decide_eq_true_2 by reflexivity.
  destruct (decide (lower (location cafe_doc)
                    = lower (ctx_location cafe_context))) as [_|Hne];
    [|by destruct Hne].
  split; [done|]. split; [done|]. split; [done|]. split; [by vm_compute|].
  split; [vm_compute; reflexivity|]. split; [vm_compute; reflexivity|].
  split; [vm_compute; reflexivity|]. apply Qnot_eq_compute. by vm_compute.
Qed.

Lemma simple_lower_cafe_query : simple_lower (utf8 "кафе") = utf8 "кафе".
Proof. vm_compute. reflexivity. Qed.

Lemma simple_lower_cafe_text :
  simple_lower (utf8 "Кафе Перлина" ++ [space] ++ utf8 "смачна їжа")
  = utf8 "кафе перлина смачна їжа".
Proof. vm_compute. reflexivity. Qed.

Lemma cafe_example_witness :
  exists r,
    search_with_context simple_lower {| documents := [cafe_doc] |}
                        (utf8 "кафе") cafe_context = [r]
    /\ (final_score r == 2.925)%Q.
Proof.
  destruct (cafe_example simple_lower simple_lower_cafe_query
                         simple_lower_cafe_text)
    as (r & Hr & _ & _ & _ & _ & _ & _ & Hfinal & _).
  exists r. exact (conj Hr Hfinal).
Defined.

(** The example of the claim evaluates to a final score of 2.925 with the
    time factor 1.3: it is not 2.25. *)
Lemma cafe_example_not_2_25 :
  exists r,
    search_with_context simple_lower {| documents := [cafe_doc] |}
                        (utf8 "кафе") cafe_context = [r]
    /\ a_base_score r = 1%Q
    /\ matched_location (context_info r) = true
    /\ category_weight (context_info r) = 1.5%Q
    /\ ~ (final_score r == 2.25)%Q
    /\ ~ (final_score r == a_base_score r * 1.5 * 1.0 * 1.5)%Q.
Proof.
  eexists. split; [vm_compute; reflexivity|].
  split; [vm_compute; reflexivity|]. split; [vm_compute; reflexivity|].
  split; [vm_compute; reflexivity|].
  split; apply Qnot_eq_compute; by vm_compute.
Qed.

(** ** Document loading *)

Lemma load_document_missing d key :
  missing_field d = Some key -> load_document d = raise (KeyError (utf8 key)).
Proof.
  unfold missing_field, load_document.
  destruct (raw_id d), (raw_title d), (raw_content d), (raw_location d),
    (raw_category d); simpl; intros [= <-]; reflexivity.
Qed.

Lemma load_document_complete d :
  missing_field d = None ->
  exists id_ title_ content_ location_ category_,
    raw_id d = Some id_ /\ raw_title d = Some title_
    /\ raw_content d = Some content_ /\ raw_location d = Some location_
    /\ raw_category d = Some category_
    /\ load_document d
       = ok {| doc_id := id_; title := title_; content := content_;
               location := location_; category := category_;
               time_tag := match raw_time_tag d with
                           | Some tag => tag
                           | None => any
                           end |}.
Proof.
  unfold missing_field, load_document.
  destruct (raw_id d) as [i|], (raw_title d) as [t|], (raw_content d) as [c|],
    (raw_location d) as [l|], (raw_category d) as [g|]; simpl; try done.
  intros _. exists i, t, c, l, g. repeat split; done.
Qed.

Lemma load_documents_app raw1 raw2 :
  load_documents (raw1 ++ raw2)
  = fold_left (fun acc d =>
                 try docs <- acc in
                 try document <- load_document d in
                 ok (docs ++ [document]))
              raw2 (load_documents raw1).
Proof. unfold load_documents. apply fold_left_app. Qed.

Lemma load_documents_raised raw e :
  fold_left (fun acc d =>
               try docs <- acc in
               try document <- load_document d in
               ok (docs ++ [document]))
            raw (raise e)
  = raise e.
Proof. induction raw as [|d raw IH]; simpl; [done | exact IH]. Qed.

Lemma load_documents_complete raw :
  Forall (fun d => missing_field d = None) raw ->
  exists docs,
    load_documents raw = ok docs
    /\ Forall2 (fun d document => load_document d = ok document) raw docs.
Proof.
  induction raw as [|d raw IH] using rev_ind; intros Hall.
  - exists []. split; [done | constructor].
  - apply Forall_app in Hall as [Hraw Hd].
    destruct (IH Hraw) as (docs & Hdocs & Heach).
    apply Forall_cons_1 in Hd as [Hd _].
    destruct (load_document_complete d Hd)
      as (i & t & c & l & g & _ & _ & _ & _ & _ & Hload).
    eexists (docs ++ [_]). split.
    + rewrite load_documents_app, Hdocs. simpl. by rewrite Hload.
    + apply Forall2_app; [done|]. constructor; [exact Hload | constructor].
Qed.

(** C8, amended: a record that lacks one of id, title, content, location,
    category makes the load fail at once with a KeyError that names the
    first missing field of the first such record, whatever follows it and
    whatever its position: the error carries the field, not the index of
    the record, and no document list is returned.  A record with the five
    fields loads, and its time_tag is any when the record has none. *)
Theorem load_documents_spec :
  (forall d,
      missing_field d = None ->
      exists document,
        load_document d = ok document
        /\ raw_id d = Some (doc_id document)
        /\ raw_title d = Some (title document)
        /\ raw_content d = Some (content document)
        /\ raw_location d = Some (location document)
        /\ raw_category d = Some (category document)
        /\ time_tag document = match raw_time_tag d with
                               | Some tag => tag
                               | None => any
                               end)
  /\ (forall raw,
         Forall (fun d => missing_field d = None) raw ->
         exists docs,
           load_documents raw = ok docs
           /\ Forall2 (fun d document => load_document d = ok document)
                      raw docs)
  /\ (forall good d rest key,
         Forall (fun d => missing_field d = None) good ->
         missing_field d = Some key ->
         load_documents (good ++ d :: rest) = raise (KeyError (utf8 key))
         /\ key ∈ ["id"; "title"; "content"; "location"; "category"]%string).
Proof.
  split.
  { intros d Hd.
    destruct (load_document_complete d Hd)
      as (i & t & c & l & g & Hi & Ht & Hc & Hl & Hg & Hload).
    eexists. split; [exact Hload|]. by repeat split. }
  split; [exact load_documents_complete|].
  intros good d rest key Hgood Hkey. split.
  - destruct (load_documents_complete good Hgood) as (docs & Hdocs & _).
    rewrite load_documents_app, Hdocs. cbn [fold_left bind ok].
    rewrite (load_document_missing d key Hkey). apply load_documents_raised.
  - unfold missing_field in Hkey.
    destruct (raw_id d), (raw_title d), (raw_content d), (raw_location d),
      (raw_category d); try discriminate Hkey; injection Hkey as <-;
      rewrite !elem_of_cons; tauto.
Qed.

Lemma load_documents_spec_witness :
  load_documents [complete_record; untitled_record; complete_record]
  = raise (KeyError (utf8 "title")).
Proof.
  destruct load_documents_spec as (_ & _ & Hfail).
  apply (Hfail [complete_record] untitled_record [complete_record]
               "title"%string).
  - repeat constructor.
  - reflexivity.
Defined.

(** The error of a malformed record is the same at index 0 and at index 1:
    it does not identify the index of the record. *)
Lemma load_documents_error_without_index :
  load_documents [untitled_record; complete_record]
  = raise (KeyError (utf8 "title"))
  /\ load_documents [complete_record; untitled_record]
     = raise (KeyError (utf8 "title"))
  /\ ~ (exists index_of : error -> nat,
          forall raw e i d,
            load_documents raw = raise e ->
            raw !! i = Some d -> missing_field d <> None ->
            (forall j d', (j < i)%nat -> raw !! j = Some d' ->
                          missing_field d' = None) ->
            index_of e = i).
Proof.
  split; [by vm_compute|]. split; [by vm_compute|].
  intros (index_of & Hindex).
  assert (H0 : index_of (KeyError (utf8 "title")) = 0%nat).
  { apply (Hindex [untitled_record; complete_record] _ 0%nat untitled_record);
      [by vm_compute | done | done |]. intros j d' Hj. lia. }
  assert (H1 : index_of (KeyError (utf8 "title")) = 1%nat).
  { apply (Hindex [complete_record; untitled_record] _ 1%nat untitled_record);
      [by vm_compute | done | done |].
    intros [|j] d' Hj; [|lia]. by intros [= <-]. }
  congruence.
Qed.

(** ** The store *)

Lemma fresh_lookup (h : heap) : h !! fresh (dom h) = None.
Proof. apply not_elem_of_dom, is_fresh. Qed.

Lemma insert_fresh_subseteq (h : heap) o : h ⊆ <[fresh (dom h) := o]> h.
Proof. apply insert_subseteq, fresh_lookup. Qed.

Lemma lookup_insert_other (h : heap) r o l o' :
  h !! r = None -> h !! l = Some o' -> <[r := o]> h !! l = Some o'.
Proof. intros Hr Hl. rewrite lookup_insert_ne; [done | congruence]. Qed.

Lemma bind_run {A B} (m : M A) (k : A -> M B) h a h' :
  m h = Some (a, h') -> bind_m m k h = k a h'.
Proof. unfold bind_m. by intros ->. Qed.

Lemma write_run h l o o' :
  h !! l = Some o' -> write l o h = Some (tt, <[l := o]> h).
Proof. unfold write. by intros ->. Qed.

Lemma read_document_run h l d :
  h !! l = Some (ODocument d) -> read_document l h = Some (d, h).
Proof. unfold read_document, read, bind_m. by intros ->. Qed.

Lemma read_documents_run h l items :
  h !! l = Some (ODocuments items) -> read_documents l h = Some (items, h).
Proof. unfold read_documents, read, bind_m. by intros ->. Qed.

Lemma read_history_run h l items :
  h !! l = Some (OHistory items) -> read_history l h = Some (items, h).
Proof. unfold read_history, read, bind_m. by intros ->. Qed.

Lemma read_preferences_run h l entries :
  h !! l = Some (OPreferences entries) ->
  read_preferences l h = Some (entries, h).
Proof. unfold read_preferences, read, bind_m. by intros ->. Qed.

Lemma read_context_run h l c :
  h !! l = Some (OContext c) -> read_context l h = Some (c, h).
Proof. unfold read_context, read, bind_m. by intros ->. Qed.

Lemma read_engine_run h l documents_ref :
  h !! l = Some (OEngine documents_ref) ->
  read_engine l h = Some (documents_ref, h).
Proof. unfold read_engine, read, bind_m. by intros ->. Qed.

Lemma read_base_results_run h l items :
  h !! l = Some (OBaseResults items) ->
  read_base_results l h = Some (items, h).
Proof. unfold read_base_results, read, bind_m. by intros ->. Qed.

Lemma read_adapted_results_run h l items :
  h !! l = Some (OAdaptedResults items) ->
  read_adapted_results l h = Some (items, h).
Proof. unfold read_adapted_results, read, bind_m. by intros ->. Qed.

(** A loop whose body rewrites one object [r] of the store and nothing
    else leaves the store as it was, but for [r]. *)
Lemma for_each_update {X T} (inj : T -> object) (r : loc) (g : T -> X -> T)
    (body : X -> M unit) (l : list X) (h : heap) (t0 : T) :
  (forall x t, x ∈ l ->
               body x (<[r := inj t]> h) = Some (tt, <[r := inj (g t x)]> h)) ->
  for_each l body (<[r := inj t0]> h)
  = Some (tt, <[r := inj (fold_left g l t0)]> h).
Proof.
  revert t0. induction l as [|x l IH]; intros t0 Hbody; simpl; [done|].
  rewrite (bind_run _ _ _ _ _ (Hbody x t0 ltac:(left))).
  apply IH. intros y t Hy. apply Hbody. by right.
Qed.

(** The same stable sort on two lists that agree on the keys. *)
Lemma insert_reverse_Forall2 {A B} (P : A -> B -> Prop) (ka : A -> Q)
    (kb : B -> Q) a b la lb :
  (forall a b, P a b -> ka a = kb b) ->
  P a b -> Forall2 P la lb ->
  Forall2 P (insert_reverse ka a la) (insert_reverse kb b lb).
Proof.
  intros Hkey Hab Hl. induction Hl as [|a' b' la lb Hab' Hl IH]; simpl.
  - by constructor.
  - rewrite (Hkey _ _ Hab), (Hkey _ _ Hab').
    destruct (Qltb (kb b) (kb b')); repeat constructor; done.
Qed.

Lemma sort_reverse_Forall2 {A B} (P : A -> B -> Prop) (ka : A -> Q)
    (kb : B -> Q) la lb :
  (forall a b, P a b -> ka a = kb b) ->
  Forall2 P la lb ->
  Forall2 P (sort_reverse ka la) (sort_reverse kb lb).
Proof.
  intros Hkey Hl. induction Hl as [|a b la lb Hab Hl IH]; simpl.
  - constructor.
  - by apply insert_reverse_Forall2.
Qed.

Lemma Forall2_elem_l {A B} (P : A -> B -> Prop) l k x :
  Forall2 P l k -> x ∈ l -> exists y, P x y.
Proof.
  induction 1 as [|a b l k Hab _ IH]; [by intros ?%elem_of_nil|].
  intros [->|Hx]%elem_of_cons; [by exists b | by apply IH].
Qed.

Section ObjectsProofs.

Variable lower : str -> str.

Lemma search_m_run (h : heap) self query documents_ doc_refs docs :
  h !! self = Some (OEngine documents_) ->
  h !! documents_ = Some (ODocuments doc_refs) ->
  Forall2 (fun l d => h !! l = Some (ODocument d)) doc_refs docs ->
  search_m lower self query h
  = Some (fresh (dom h),
          <[fresh (dom h) :=
              OBaseResults
                (sort_reverse ref_base_score
                   (fold_left (score_step lower h query) doc_refs []))]> h).
Proof.
  intros Hself Hdocs Heach. unfold search_m.
  pose proof (fresh_lookup h) as Hfresh.
  set (r := fresh (dom h)) in *.
  rewrite (bind_run _ _ _ r (<[r := OBaseResults []]> h)) by done.
  rewrite (bind_run _ _ _ _ _
             (read_engine_run _ _ _ (lookup_insert_other _ _ _ _ _ Hfresh Hself))).
  rewrite (bind_run _ _ _ _ _
             (read_documents_run _ _ _
                (lookup_insert_other _ _ _ _ _ Hfresh Hdocs))).
  rewrite (bind_run _ _ _ tt
             (<[r := OBaseResults (fold_left (score_step lower h query) doc_refs [])]> h)).
  - rewrite (bind_run _ _ _ _ _
               (read_base_results_run _ _ _ (lookup_insert_eq _ _ _))).
    rewrite (bind_run _ _ _ _ _ (write_run _ _ _ _ (lookup_insert_eq _ _ _))).
    by rewrite insert_insert_eq.
  - apply (for_each_update OBaseResults). intros d items Hd.
    destruct (Forall2_elem_l _ _ _ _ Heach Hd) as (doc_ & Hdoc).
    rewrite (bind_run _ _ _ _ _
               (read_document_run _ _ _
                  (lookup_insert_other _ _ _ _ _ Hfresh Hdoc))).
    unfold score_step. rewrite Hdoc. cbv zeta.
    destruct (Qltb 0 _); [|done].
    rewrite (bind_run _ _ _ _ _
               (read_base_results_run _ _ _ (lookup_insert_eq _ _ _))).
    rewrite (write_run _ _ _ _ (lookup_insert_eq _ _ _)).
    by rewrite insert_insert_eq.
Qed.

Lemma base_value_weaken (h h' : heap) ref r :
  h ⊆ h' -> base_value h ref r -> base_value h' ref r.
Proof.
  intros Hsub [Hdoc Hscore]. split; [|done].
  by apply (lookup_weaken h h').
Qed.

Lemma score_loop_value (h : heap) query doc_refs docs acc acc' :
  Forall2 (fun l d => h !! l = Some (ODocument d)) doc_refs docs ->
  Forall2 (base_value h) acc acc' ->
  Forall2 (base_value h)
    (fold_left (score_step lower h query) doc_refs acc)
    (fold_left (fun results doc_ =>
                  let text := lower (title doc_ ++ [space] ++ content doc_) in
                  let score := score_tokens text (tokenize lower query) in
                  if Qltb 0 score
                  then results ++ [{| doc := doc_; base_score := score |}]
                  else results)
               docs acc').
Proof.
  intros Heach. revert acc acc'.
  induction Heach as [|l d doc_refs docs Hd _ IH]; intros acc acc' Hacc;
    cbn [fold_left]; [exact Hacc|].
  apply IH. unfold score_step. rewrite Hd. cbv zeta.
  destruct (Qltb 0 _); [|exact Hacc].
  apply Forall2_app; [exact Hacc|].
  constructor; [|constructor]. split; [exact Hd | reflexivity].
Qed.

Lemma search_value (h : heap) query doc_refs docs :
  Forall2 (fun l d => h !! l = Some (ODocument d)) doc_refs docs ->
  Forall2 (base_value h)
    (sort_reverse ref_base_score (fold_left (score_step lower h query) doc_refs []))
    (search lower {| documents := docs |} query).
Proof.
  intros Heach. unfold search.
  apply sort_reverse_Forall2; [by intros ref r [_ ?]|].
  by apply score_loop_value.
Qed.

Lemma cond_increment_run (b : bool) key p entries (h : heap) :
  (if b then increment_m key p else unit_m tt) (<[p := OPreferences entries]> h)
  = Some (tt, <[p := OPreferences (if b then increment key entries
                                   else entries)]> h).
Proof.
  destruct b; [|done]. unfold increment_m.
  rewrite (bind_run _ _ _ _ _
             (read_preferences_run _ _ _ (lookup_insert_eq _ _ _))).
  rewrite (write_run _ _ _ _ (lookup_insert_eq _ _ _)).
  by rewrite insert_insert_eq.
Qed.

Lemma build_history_preferences_m_run (h : heap) self context c history
    (self_value : ContextSearchEngine) (context_value : UserContext) :
  h !! context = Some (OContext c) ->
  h !! query_history_ref c = Some (OHistory history) ->
  query_history context_value = history ->
  build_history_preferences_m self context h
  = Some (fresh (dom h),
          <[fresh (dom h) :=
              OPreferences
                (build_history_preferences self_value context_value)]> h).
Proof.
  intros Hctx Hhist Hvalue. unfold build_history_preferences_m.
  pose proof (fresh_lookup h) as Hfresh.
  set (p := fresh (dom h)) in *.
  set (init := list_to_map _).
  rewrite (bind_run _ _ _ p (<[p := OPreferences init]> h)) by done.
  rewrite (bind_run _ _ _ _ _
             (read_context_run _ _ _
                (lookup_insert_other _ _ _ _ _ Hfresh Hctx))).
  rewrite (bind_run _ _ _ _ _
             (read_history_run _ _ _
                (lookup_insert_other _ _ _ _ _ Hfresh Hhist))).
  rewrite (bind_run _ _ _ tt
             (<[p := OPreferences (fold_left count_query history init)]> h)).
  - rewrite (bind_run _ _ _ _ _
               (read_preferences_run _ _ _ (lookup_insert_eq _ _ _))).
    rewrite (bind_run _ _ _ _ _ (write_run _ _ _ _ (lookup_insert_eq _ _ _))).
    rewrite insert_insert_eq.
    unfold build_history_preferences, history_counts. by rewrite Hvalue.
  - apply (for_each_update OPreferences). intros q entries _.
    rewrite (bind_run _ _ _ _ _ (cond_increment_run _ _ _ _ _)).
    rewrite (bind_run _ _ _ _ _ (cond_increment_run _ _ _ _ _)).
    rewrite (bind_run _ _ _ _ _ (cond_increment_run _ _ _ _ _)).
    by rewrite cond_increment_run.
Qed.

(** The merge loop computes [combine_preferences]. *)
Lemma merge_loop (history_prefs explicit : gmap str Q) :
  fold_left (fun (combined : gmap str Q) (item : str * Q) =>
               <[item.1 := (default 1%Q (combined !! item.1) * item.2)%Q]>
                 combined)
            (dict_items explicit) history_prefs
  = combine_preferences history_prefs explicit.
Proof.
  unfold combine_preferences, dict_items. rewrite map_fold_foldr.
  induction (map_to_list explicit) as [|[cat w] items IH]; [done|].
  rewrite reverse_cons, fold_left_app. cbn [fold_left foldr].
  by rewrite IH.
Qed.

Lemma adapt_ref_value (h : heap) c combined ref r context_value :
  base_value h ref r ->
  ctx_location context_value = location_value c ->
  time_segment context_value = time_segment_value c ->
  adapted_value h (adapt_ref lower c combined ref (doc r))
                (adapt lower context_value combined r).
Proof.
  intros [Hdoc Hscore] Hloc Htime.
  unfold adapted_value, adapt_ref, adapt.
  cbn [a_doc_ref ref_a_base_score ref_final_score ref_context_info
       a_doc a_base_score final_score context_info].
  rewrite Hscore, Hloc, Htime. by repeat split.
Qed.

Lemma adapt_loop_value (h : heap) c combined context_value refs rs acc acc' :
  ctx_location context_value = location_value c ->
  time_segment context_value = time_segment_value c ->
  Forall2 (base_value h) refs rs ->
  Forall2 (adapted_value h) acc acc' ->
  Forall2 (adapted_value h)
    (fold_left (adapt_step lower h c combined) refs acc)
    (acc' ++ map (adapt lower context_value combined) rs).
Proof.
  intros Hloc Htime Hrefs. revert acc acc'.
  induction Hrefs as [|ref r refs rs Hr _ IH]; intros acc acc' Hacc;
    cbn [fold_left map].
  - by rewrite app_nil_r.
  - replace (acc' ++ adapt lower context_value combined r
                       :: map (adapt lower context_value combined) rs)
      with ((acc' ++ [adapt lower context_value combined r])
              ++ map (adapt lower context_value combined) rs)
      by (by rewrite <- app_assoc).
    apply IH. unfold adapt_step. destruct Hr as [Hdoc Hscore]. rewrite Hdoc.
    apply Forall2_app; [exact Hacc|].
    constructor; [|constructor]. by apply adapt_ref_value.
Qed.

Lemma adapted_value_weaken (h h' : heap) ref r :
  h ⊆ h' -> adapted_value h ref r -> adapted_value h' ref r.
Proof.
  intros Hsub (Hdoc & Hrest). split; [|exact Hrest].
  by apply (lookup_weaken h h').
Qed.

Lemma search_with_context_m_run_fresh (h : heap) self context query documents_
    doc_refs docs c history explicit :
  h !! self = Some (OEngine documents_) ->
  h !! documents_ = Some (ODocuments doc_refs) ->
  Forall2 (fun l d => h !! l = Some (ODocument d)) doc_refs docs ->
  h !! context = Some (OContext c) ->
  h !! query_history_ref c = Some (OHistory history) ->
  h !! preferences_ref c = Some (OPreferences explicit) ->
  exists out h' items,
    search_with_context_m lower self query context h = Some (out, h')
    /\ h !! out = None
    /\ h ⊆ h'
    /\ h' !! out = Some (OAdaptedResults items)
    /\ Forall2 (adapted_value h') items
         (search_with_context lower {| documents := docs |} query
            {| query_history := history;
               ctx_location := location_value c;
               time_segment := time_segment_value c;
               preferences := explicit |}).
Proof.
  intros Hself Hdocs Heach Hctx Hhist Hprefs.
  set (engine_value := {| documents := docs |}).
  set (context_value := {| query_history := history;
                           ctx_location := location_value c;
                           time_segment := time_segment_value c;
                           preferences := explicit |}).
  unfold search_with_context_m.
  rewrite (bind_run _ _ _ _ _
             (search_m_run h self query documents_ doc_refs docs
                           Hself Hdocs Heach)).
  pose proof (search_value h query doc_refs docs Heach) as Hbase.
  fold engine_value in Hbase.
  set (base_items := sort_reverse ref_base_score _) in *.
  pose proof (insert_fresh_subseteq h (OBaseResults base_items)) as Hsub1.
  set (h1 := <[fresh (dom h) := OBaseResults base_items]> h) in *.
  rewrite (bind_run _ _ _ _ _
             (read_base_results_run h1 _ _ (lookup_insert_eq _ _ _))).
  destruct base_items as [|item items] eqn:Hitems.
  - exists (fresh (dom h1)), (<[fresh (dom h1) := OAdaptedResults []]> h1), [].
    split; [reflexivity|].
    split; [exact (lookup_weaken_None _ _ _ (fresh_lookup h1) Hsub1)|].
    split; [etrans; [exact Hsub1 | apply insert_fresh_subseteq]|].
    split; [apply lookup_insert_eq|].
    apply Forall2_nil_inv_l in Hbase. unfold search_with_context.
    rewrite Hbase. constructor.
  - rewrite <- Hitems in *. clear Hitems.
    rewrite (bind_run _ _ _ _ _
               (build_history_preferences_m_run h1 self context c history
                  engine_value context_value
                  (lookup_weaken _ _ _ _ Hctx Hsub1)
                  (lookup_weaken _ _ _ _ Hhist Hsub1) eq_refl)).
    set (history_prefs := build_history_preferences engine_value context_value).
    pose proof (insert_fresh_subseteq h1 (OPreferences history_prefs)) as Hsub2.
    set (h2 := <[fresh (dom h1) := OPreferences history_prefs]> h1) in *.
    rewrite (bind_run _ _ _ _ _
               (read_preferences_run h2 _ _ (lookup_insert_eq _ _ _))).
    pose proof (fresh_lookup h2) as Hfresh2.
    set (combined_prefs := fresh (dom h2)) in *.
    rewrite (bind_run _ _ _ combined_prefs
               (<[combined_prefs := OPreferences history_prefs]> h2))
      by reflexivity.
    assert (Hsub02 : h ⊆ h2) by (etrans; [exact Hsub1 | exact Hsub2]).
    rewrite (bind_run _ _ _ _ _
               (read_context_run _ _ _
                  (lookup_insert_other _ _ _ _ _ Hfresh2
                     (lookup_weaken _ _ _ _ Hctx Hsub02)))).
    rewrite (bind_run _ _ _ _ _
               (read_preferences_run _ _ _
                  (lookup_insert_other _ _ _ _ _ Hfresh2
                     (lookup_weaken _ _ _ _ Hprefs Hsub02)))).
    set (combined := combine_preferences history_prefs explicit).
    rewrite (bind_run _ _ _ tt (<[combined_prefs := OPreferences combined]> h2)).
    2: { unfold combined. rewrite <- merge_loop.
         apply (for_each_update OPreferences). intros entry entries _.
         rewrite (bind_run _ _ _ _ _
                    (read_preferences_run _ _ _ (lookup_insert_eq _ _ _))).
         rewrite (write_run _ _ _ _ (lookup_insert_eq _ _ _)).
         by rewrite insert_insert_eq. }
    assert (Hsub3 : h2 ⊆ <[combined_prefs := OPreferences combined]> h2)
      by (by apply insert_subseteq).
    set (h3 := <[combined_prefs := OPreferences combined]> h2) in *.
    assert (Hsub03 : h ⊆ h3) by (etrans; [exact Hsub02 | exact Hsub3]).
    pose proof (fresh_lookup h3) as Hfresh3.
    set (adapted_results := fresh (dom h3)) in *.
    rewrite (bind_run _ _ _ adapted_results
               (<[adapted_results := OAdaptedResults []]> h3))
      by reflexivity.
    set (adapted := fold_left (adapt_step lower h3 c combined) base_items []).
    rewrite (bind_run _ _ _ tt
               (<[adapted_results := OAdaptedResults adapted]> h3)).
    2: { apply (for_each_update OAdaptedResults). intros ref refs Href.
         destruct (Forall2_elem_l _ _ _ _ Hbase Href) as (r & Hr).
         destruct (base_value_weaken h h3 _ _ Hsub03 Hr) as [Hdoc _].
         rewrite (bind_run _ _ _ _ _
                    (read_document_run _ _ _
                       (lookup_insert_other _ _ _ _ _ Hfresh3 Hdoc))).
         rewrite (bind_run _ _ _ _ _
                    (read_context_run _ _ _
                       (lookup_insert_other _ _ _ _ _ Hfresh3
                          (lookup_weaken _ _ _ _ Hctx Hsub03)))).
         assert (Hcombined : h3 !! combined_prefs = Some (OPreferences combined))
           by apply lookup_insert_eq.
         rewrite (bind_run _ _ _ _ _
                    (read_preferences_run _ _ _
                       (lookup_insert_other _ _ _ _ _ Hfresh3 Hcombined))).
         rewrite (bind_run _ _ _ _ _
                    (read_adapted_results_run _ _ _ (lookup_insert_eq _ _ _))).
         rewrite (write_run _ _ _ _ (lookup_insert_eq _ _ _)).
         rewrite insert_insert_eq. unfold adapt_step. by rewrite Hdoc. }
    rewrite (bind_run _ _ _ _ _
               (read_adapted_results_run _ _ _ (lookup_insert_eq _ _ _))).
    rewrite (bind_run _ _ _ _ _ (write_run _ _ _ _ (lookup_insert_eq _ _ _))).
    rewrite insert_insert_eq.
    assert (Hsub4 : h3 ⊆ <[adapted_results :=
                             OAdaptedResults
                               (sort_reverse ref_final_score adapted)]> h3)
      by (by apply insert_subseteq).
    eexists _, _, _. split; [reflexivity|].
    split; [exact (lookup_weaken_None _ _ _ Hfresh3 Hsub03)|].
    split; [etrans; [exact Hsub03 | exact Hsub4]|].
    split; [apply lookup_insert_eq|].
    rewrite search_with_context_unfold.
    apply sort_reverse_Forall2; [by intros ? ? (_ & _ & ? & _)|].
    eapply Forall2_impl;
      [|intros ? ?; apply (adapted_value_weaken h3 _ _ _ Hsub4)].
    apply (adapt_loop_value h3 c combined context_value base_items
                            (search lower engine_value query) [] []);
      [reflexivity | reflexivity | | constructor].
    eapply Forall2_impl; [exact Hbase|].
    intros ? ?. by apply base_value_weaken.
Qed.

Lemma search_with_context_m_run (h : heap) self context query documents_
    doc_refs docs c history explicit :
  h !! self = Some (OEngine documents_) ->
  h !! documents_ = Some (ODocuments doc_refs) ->
  Forall2 (fun l d => h !! l = Some (ODocument d)) doc_refs docs ->
  h !! context = Some (OContext c) ->
  h !! query_history_ref c = Some (OHistory history) ->
  h !! preferences_ref c = Some (OPreferences explicit) ->
  exists out h' items,
    search_with_context_m lower self query context h = Some (out, h')
    /\ h ⊆ h'
    /\ h' !! out = Some (OAdaptedResults items)
    /\ Forall2 (adapted_value h') items
         (search_with_context lower {| documents := docs |} query
            {| query_history := history;
               ctx_location := location_value c;
               time_segment := time_segment_value c;
               preferences := explicit |}).
Proof.
  intros Hself Hdocs Heach Hctx Hhist Hprefs.
  destruct (search_with_context_m_run_fresh h self context query documents_
              doc_refs docs c history explicit
              Hself Hdocs Heach Hctx Hhist Hprefs)
    as (out & h' & items & Hrun & _ & Hrest).
  by exists out, h', items.
Qed.

End ObjectsProofs.

(** [add_query] does write to a shared object: the history list of the
    context is replaced by the longer one, in place. *)
Lemma add_query_m_run (lower : str -> str) (h : heap) self c history query :
  h !! self = Some (OContext c) ->
  h !! query_history_ref c = Some (OHistory history) ->
  add_query_m lower self query h
  = Some (tt, <[query_history_ref c := OHistory (history ++ [lower query])]> h).
Proof.
  intros Hself Hhist. unfold add_query_m.
  rewrite (bind_run _ _ _ _ _ (read_context_run _ _ _ Hself)).
  rewrite (bind_run _ _ _ _ _ (read_history_run _ _ _ Hhist)).
  by rewrite (write_run _ _ _ _ Hhist).
Qed.

(** C10: in a store where the engine holds a list of documents and the
    context holds its history list and its preferences dictionary,
    [search] and [search_with_context] run to the end and every object of
    the store is afterwards what it was before: the context with its
    location and time_segment, its history list, its preferences
    dictionary, the engine, its document list and every document.  The
    calls only add objects; the list they return holds the results of the
    value model. *)
Theorem search_with_context_frame (lower : str -> str) (h : heap)
    (self context : loc) (query : str) (documents_ : loc)
    (doc_refs : list loc) (docs : list Document) (c : ContextObject)
    (history : list str) (explicit : gmap str Q)
    (Hself : h !! self = Some (OEngine documents_))
    (Hdocs : h !! documents_ = Some (ODocuments doc_refs))
    (Heach : Forall2 (fun l d => h !! l = Some (ODocument d)) doc_refs docs)
    (Hctx : h !! context = Some (OContext c))
    (Hhist : h !! query_history_ref c = Some (OHistory history))
    (Hprefs : h !! preferences_ref c = Some (OPreferences explicit)) :
  (exists out h' items,
      search_m lower self query h = Some (out, h')
      /\ (forall l o, h !! l = Some o -> h' !! l = Some o)
      /\ h' !! out = Some (OBaseResults items)
      /\ Forall2 (base_value h') items
           (search lower {| documents := docs |} query))
  /\ (exists out h' items,
         search_with_context_m lower self query context h = Some (out, h')
         /\ (forall l o, h !! l = Some o -> h' !! l = Some o)
         /\ h' !! context = Some (OContext c)
         /\ h' !! query_history_ref c = Some (OHistory history)
         /\ h' !! preferences_ref c = Some (OPreferences explicit)
         /\ h' !! self = Some (OEngine documents_)
         /\ h' !! documents_ = Some (ODocuments doc_refs)
         /\ Forall2 (fun l d => h' !! l = Some (ODocument d)) doc_refs docs
         /\ h' !! out = Some (OAdaptedResults items)
         /\ Forall2 (adapted_value h') items
              (search_with_context lower {| documents := docs |} query
                 {| query_history := history;
                    ctx_location := location_value c;
                    time_segment := time_segment_value c;
                    preferences := explicit |})).
Proof.
  split.
  - eexists _, _, _.
    split; [exact (search_m_run lower h self query documents_ doc_refs docs
                                Hself Hdocs Heach)|].
    pose proof (insert_fresh_subseteq h
                  (OBaseResults
                     (sort_reverse ref_base_score
                        (fold_left (score_step lower h query) doc_refs []))))
      as Hsub.
    split; [intros l o Hl; exact (lookup_weaken _ _ _ _ Hl Hsub)|].
    split; [apply lookup_insert_eq|].
    eapply Forall2_impl; [exact (search_value lower h query doc_refs docs Heach)|].
    intros ? ?. by apply base_value_weaken.
  - destruct (search_with_context_m_run lower h self context query documents_
                doc_refs docs c history explicit
                Hself Hdocs Heach Hctx Hhist Hprefs)
      as (out & h' & items & Hrun & Hsub & Hout & Hvalue).
    exists out, h', items.
    split; [exact Hrun|].
    split; [intros l o Hl; exact (lookup_weaken _ _ _ _ Hl Hsub)|].
    split; [exact (lookup_weaken _ _ _ _ Hctx Hsub)|].
    split; [exact (lookup_weaken _ _ _ _ Hhist Hsub)|].
    split; [exact (lookup_weaken _ _ _ _ Hprefs Hsub)|].
    split; [exact (lookup_weaken _ _ _ _ Hself Hsub)|].
    split; [exact (lookup_weaken _ _ _ _ Hdocs Hsub)|].
    split; [|split; [exact Hout | exact Hvalue]].
    eapply Forall2_impl; [exact Heach|].
    intros l d Hl. exact (lookup_weaken _ _ _ _ Hl Hsub).
Qed.

Lemma search_with_context_frame_witness :
  exists out h',
    search_with_context_m simple_lower 0%nat (utf8 "tea Кафе") 4%nat demo_store
    = Some (out, h')
    /\ (forall l o, demo_store !! l = Some o -> h' !! l = Some o).
Proof.
  destruct (search_with_context_frame simple_lower demo_store 0%nat 4%nat
              (utf8 "tea Кафе") 1%nat [2%nat; 3%nat]
              [tea_doc morning; cafe_doc]
              {| query_history_ref := 5%nat; location_value := utf8 "Kyiv";
                 time_segment_value := any; preferences_ref := 6%nat |}
              [utf8 "кафе хороше"] {[ food := 2%Q ]})
    as (_ & out & h' & items & Hrun & Hframe & _);
    [vm_compute; reflexivity
    |vm_compute; reflexivity
    |repeat constructor; vm_compute; reflexivity
    |vm_compute; reflexivity
    |vm_compute; reflexivity
    |vm_compute; reflexivity
    |].
  exists out, h'. exact (conj Hrun Hframe).
Defined.

(** The contrast: after [add_query] the history list of the same store is
    another one. *)
Example add_query_changes_history :
  exists h',
    add_query_m simple_lower 4%nat (utf8 "Tea") demo_store = Some (tt, h')
    /\ demo_store !! 5%nat = Some (OHistory [utf8 "кафе хороше"])
    /\ h' !! 5%nat = Some (OHistory [utf8 "кафе хороше"; utf8 "tea"]).
Proof.
  eexists. split; [vm_compute; reflexivity|].
  split; vm_compute; reflexivity.
Qed.

(** * Further properties of the code *)

(** ** Tokenizer *)

(** X1: a token is never empty and holds neither a space nor a separator;
    its characters are characters of the lowercased text. *)
Theorem tokens_are_clean (lower : str -> str) (text : str) :
  Forall (fun t => t <> []
                   /\ (space ∉ t)
                   /\ forall c, c ∈ t -> (c ∈ lower text) /\ (c ∉ separators))
         (tokenize lower text).
Proof. apply tokenize_tokens. Qed.

Lemma split_app_fragments sep (x y : str) :
  split sep (x ++ sep :: y) = split sep x ++ split sep y.
Proof.
  induction x as [|c x IH]; cbn [app split].
  - by rewrite N.eqb_refl.
  - destruct (c =? sep); [by rewrite IH|].
    rewrite IH. pose proof (split_nonempty sep x) as Hne.
    by destruct (split sep x).
Qed.

Lemma spaced_app_separator (a b : str) c :
  c = space \/ c ∈ separators ->
  spaced (a ++ c :: b) = spaced a ++ space :: spaced b.
Proof.
  intros Hc. unfold spaced. rewrite map_app. cbn [map]. f_equal. f_equal.
  case_decide; [done|]. by destruct Hc.
Qed.

(** X2: a space or a separator between two texts keeps their tokens
    apart: the tokens of the whole are the tokens of the first text
    followed by the tokens of the second.  The hypothesis is the fact
    about [str.lower] used: it lowercases the two texts on their own and
    leaves the character between them. *)
Theorem tokenize_app (lower : str -> str) (a b : str) (c : char)
    (Hc : c = space \/ c ∈ separators)
    (Hlower : lower (a ++ c :: b) = lower a ++ c :: lower b) :
  tokenize lower (a ++ c :: b) = tokenize lower a ++ tokenize lower b.
Proof.
  rewrite !tokenize_unfold, Hlower, spaced_app_separator by done.
  by rewrite split_app_fragments, filter_app.
Qed.

Lemma tokenize_app_witness :
  tokenize simple_lower (utf8 "Tea" ++ 44 :: utf8 "Кафе bar")
  = tokenize simple_lower (utf8 "Tea") ++ tokenize simple_lower (utf8 "Кафе bar").
Proof.
  apply (tokenize_app simple_lower (utf8 "Tea") (utf8 "Кафе bar") 44).
  - right. apply (bool_decide_unpack _). vm_compute. exact I.
  - vm_compute. reflexivity.
Defined.

(** ** Base scorer *)

(** X3: every result holds a document of the engine's list, its base
    score is at least 1 and at most the number of query tokens, and there
    are no more results than documents. *)
Theorem search_bounds (lower : str -> str) (self : BasicSearchEngine)
    (query : str) :
  Forall (fun r =>
            doc r ∈ documents self
            /\ (1 <= base_score r)%Q
            /\ (base_score r
                <= inject_Z (Z.of_nat (length (tokenize lower query))))%Q)
         (search lower self query)
  /\ (length (search lower self query) <= length (documents self))%nat.
Proof.
  split.
  - apply Forall_forall. intros r (d & Hd & Hpos & ->)%search_elem.
    cbn [scored doc base_score]. split; [exact Hd|].
    change 1%Q with (inject_Z 1). rewrite <- !Zle_Qle.
    pose proof (length_filter
                  (fun qt => contains (searchable lower d) qt = true)
                  (tokenize lower query)) as Hle.
    unfold matching in *. lia.
  - rewrite search_unfold, sort_reverse_perm, length_map.
    apply length_filter.
Qed.

(** X4: a query and its normal form, the tokens joined by single spaces,
    give the same results.  The hypothesis on [str.lower] is the one of
    the idempotence of [tokenize]. *)
Theorem search_normalized_query (lower : str -> str)
    (Hstable : forall text u : str,
        (forall c, c ∈ u -> c = space \/ c ∈ lower text) -> lower u = u)
    (self : BasicSearchEngine) (query : str) :
  search lower self (join [space] (tokenize lower query))
  = search lower self query.
Proof.
  assert (Htok : tokenize lower (join [space] (tokenize lower query))
                 = tokenize lower query).
  { pose proof (tokenize_tokens lower query) as Htok.
    apply tokenize_join.
    - eapply Forall_impl; [exact Htok|]. intros t (Hne & Hsp & Hc).
      repeat split; [done..|]. intros c Hin. by apply Hc.
    - apply (Hstable query). intros c Hc.
      destruct (join_chars _ _ Hc) as [->|(w & Hw & Hcw)]; [by left|].
      right. rewrite Forall_forall in Htok.
      destruct (Htok w Hw) as (_ & _ & Hchars). by apply Hchars. }
  unfold search. by rewrite Htok.
Qed.

Lemma search_normalized_query_witness :
  search simple_lower {| documents := [cafe_doc; tea_doc any] |}
         (join [space] (tokenize simple_lower (utf8 "Tea,  КАФЕ!")))
  = search simple_lower {| documents := [cafe_doc; tea_doc any] |}
           (utf8 "Tea,  КАФЕ!").
Proof.
  apply (search_normalized_query simple_lower simple_lower_stable).
Defined.

(** X5: the results over two document lists put end to end are the
    results over the first and the results over the second, in some
    order. *)
Theorem search_app (lower : str -> str) (docs1 docs2 : list Document)
    (query : str) :
  search lower {| documents := docs1 ++ docs2 |} query
  ≡ₚ search lower {| documents := docs1 |} query
     ++ search lower {| documents := docs2 |} query.
Proof.
  rewrite !search_unfold, !sort_reverse_perm. cbn [documents].
  by rewrite filter_app, map_app.
Qed.

(** ** History preferences *)

Lemma history_weight_linear (n : nat) :
  (history_weight n == 1 + inject_Z (Z.of_nat n) * 0.5)%Q.
Proof. unfold history_weight. destruct n; [|reflexivity]. vm_compute. reflexivity. Qed.

Lemma history_count_le cat history :
  (history_count cat history <= length history)%nat.
Proof. apply length_filter. Qed.

Lemma history_weight_range (n m : nat) :
  (n <= m)%nat ->
  (1 <= history_weight n)%Q
  /\ (history_weight n <= 1 + inject_Z (Z.of_nat m) * 0.5)%Q.
Proof.
  intros Hnm. rewrite history_weight_linear.
  assert (H0 : (0 <= inject_Z (Z.of_nat n))%Q)
    by (change 0%Q with (inject_Z 0); rewrite <- Zle_Qle; lia).
  assert (H1 : (inject_Z (Z.of_nat n) <= inject_Z (Z.of_nat m))%Q)
    by (rewrite <- Zle_Qle; lia).
  split; lra.
Qed.

(** X6: the history preferences have exactly the keys food, news,
    education and sport, and every weight lies between 1 and
    1 + 0.5 * (number of history queries). *)
Theorem history_preferences_range (self : ContextSearchEngine)
    (context : UserContext) :
  (forall cat,
      is_Some (build_history_preferences self context !! cat)
      <-> cat ∈ [food; news; education; sport])
  /\ (forall cat w,
         build_history_preferences self context !! cat = Some w ->
         (1 <= w)%Q
         /\ (w <= 1 + inject_Z (Z.of_nat (length (query_history context)))
                      * 0.5)%Q).
Proof.
  split.
  - intros cat. rewrite build_history_preferences_lookup.
    case_decide as Hcat; split.
    + done.
    + by eexists.
    + by intros [? ?].
    + done.
  - intros cat w. rewrite build_history_preferences_lookup.
    case_decide; [|done]. intros [= <-].
    apply history_weight_range, history_count_le.
Qed.

(** X7: the order of the history does not count: two contexts whose
    histories hold the same queries, in any order, and that agree on
    location, time_segment and preferences give the same history
    preferences and the same context results. *)
Theorem history_order_irrelevant (lower : str -> str)
    (self : ContextSearchEngine) (query : str) (context1 context2 : UserContext)
    (Hhistory : query_history context1 ≡ₚ query_history context2)
    (Hlocation : ctx_location context1 = ctx_location context2)
    (Htime : time_segment context1 = time_segment context2)
    (Hpreferences : preferences context1 = preferences context2) :
  build_history_preferences self context1
  = build_history_preferences self context2
  /\ search_with_context lower self query context1
     = search_with_context lower self query context2.
Proof.
  assert (Hbuild : build_history_preferences self context1
                   = build_history_preferences self context2).
  { apply map_eq. intros cat. rewrite !build_history_preferences_lookup.
    case_decide; [|done]. unfold history_count. by rewrite Hhistory. }
  split; [exact Hbuild|].
  rewrite !search_with_context_unfold. unfold combined.
  rewrite Hbuild, Hpreferences. f_equal. apply map_ext. intros item.
  unfold adapt. by rewrite Hlocation, Htime.
Qed.

Lemma history_order_irrelevant_witness :
  let context1 :=
    {| query_history := [utf8 "кафе"; utf8 "news"]; ctx_location := utf8 "Kyiv";
       time_segment := any; preferences := ∅ |} in
  let context2 :=
    {| query_history := [utf8 "news"; utf8 "кафе"]; ctx_location := utf8 "Kyiv";
       time_segment := any; preferences := ∅ |} in
  search_with_context simple_lower {| documents := [cafe_doc] |} (utf8 "кафе")
                      context1
  = search_with_context simple_lower {| documents := [cafe_doc] |} (utf8 "кафе")
                        context2.
Proof.
  intros context1 context2.
  apply (history_order_irrelevant simple_lower {| documents := [cafe_doc] |}
           (utf8 "кафе") context1 context2);
    [apply Permutation_swap | reflexivity | reflexivity | reflexivity].
Defined.

(** X8: recording a query with [add_query] raises the history weight of
    each category whose trigger the lowercased query holds by exactly
    0.5 and leaves the other weights as they are. *)
Theorem add_query_raises_weights (lower : str -> str)
    (self : ContextSearchEngine) (context : UserContext) (query : str) :
  Forall (fun cat =>
            exists w w',
              build_history_preferences self context !! cat = Some w
              /\ build_history_preferences self (add_query lower context query)
                 !! cat = Some w'
              /\ (w' == w + (if triggered cat (lower query) then 0.5 else 0))%Q)
         [food; news; education; sport].
Proof.
  apply Forall_forall. intros cat Hcat. eexists _, _.
  rewrite !build_history_preferences_lookup, !decide_True by done.
  split; [reflexivity|]. split; [reflexivity|].
  cbn [add_query query_history]. unfold history_count.
  rewrite filter_app, length_app, !history_weight_linear, filter_cons, filter_nil.
  destruct (triggered cat (lower query)).
  - rewrite decide_True by done. cbn [length]. rewrite Nat2Z.inj_add.
    rewrite inject_Z_plus. change (inject_Z (Z.of_nat 1)) with 1%Q. lra.
  - rewrite decide_False by done. cbn [length]. rewrite Nat.add_0_r. lra.
Qed.

(** ** Context re-ranker *)

(** X9: re-ranking neither adds nor drops a result and changes no base
    score: the documents and base scores of the context results are
    those of the base results, possibly in another order. *)
Theorem rerank_keeps_results (lower : str -> str) (self : ContextSearchEngine)
    (query : str) (context : UserContext) :
  map (fun r => (a_doc r, a_base_score r))
      (search_with_context lower self query context)
  ≡ₚ map (fun r => (doc r, base_score r)) (search lower self query)
  /\ length (search_with_context lower self query context)
     = length (search lower self query).
Proof.
  rewrite search_with_context_unfold, sort_reverse_perm.
  split; [by rewrite map_map | apply length_map].
Qed.

(** X10: the explanation of a result explains its score: the final
    score is the base score times the factors read off the explanation
    alone (1.5 if the location is marked as matched, the time factor of
    the recorded time tag and time segment, the recorded category
    weight); the recorded time segment is the context's, the recorded
    time tag is the document's, and the location is marked as matched
    exactly when the lowercased locations of the document and of the
    context are equal. *)
Theorem context_info_accurate (lower : str -> str)
    (self : ContextSearchEngine) (query : str) (context : UserContext) :
  Forall (fun r =>
            (final_score r
             == a_base_score r
                * (if matched_location (context_info r) then 1.5 else 1)
                * time_factor (doc_time_tag (context_info r))
                              (info_time_segment (context_info r))
                * category_weight (context_info r))%Q
            /\ info_time_segment (context_info r) = time_segment context
            /\ doc_time_tag (context_info r) = time_tag (a_doc r)
            /\ (matched_location (context_info r) = true
                <-> lower (location (a_doc r))
                    = lower (ctx_location context)))
         (search_with_context lower self query context).
Proof.
  apply Forall_forall. intros r (item & _ & ->)%search_with_context_elem.
  split; [apply adapt_final|].
  unfold adapt.
  cbn [context_info info_time_segment doc_time_tag matched_location a_doc].
  split; [done|]. split; [done|]. apply bool_decide_eq_true.
Qed.

Lemma combined_without_preferences self context cat :
  preferences context = ∅ ->
  combined self context !! cat = build_history_preferences self context !! cat.
Proof.
  intros Hno. unfold combined.
  by rewrite combine_preferences_lookup, Hno, lookup_empty.
Qed.





Lemma sort_reverse_sorted {A} (key : A -> Q) (l : list A) :
  descending key l -> sort_reverse key l = l.
Proof.
  unfold descending. induction 1 as [|x l Hl IH Hx]; [done|].
  cbn [sort_reverse foldr]. fold (sort_reverse key l). rewrite IH.
  destruct l as [|y l]; [done|]. cbn [insert_reverse].
  apply Forall_cons_1 in Hx as [Hy _].
  by rewrite (proj2 (Qltb_ge (key x) (key y)) Hy).
Qed.

Lemma descending_map {A B} (f : A -> B) (ka : A -> Q) (kb : B -> Q)
    (l : list A) :
  (forall a, a ∈ l -> (kb (f a) == ka a)%Q) ->
  descending ka l -> descending kb (map f l).
Proof.
  unfold descending. intros Hkey Hl.
  induction Hl as [|x l Hl IH Hx]; cbn [map]; constructor.
  - apply IH. intros a Ha. apply Hkey. by right.
  - apply Forall_forall. intros b (a & -> & Ha)%list_elem_of_fmap.
    rewrite Forall_forall in Hx.
    rewrite (Hkey a) by (by right). rewrite (Hkey x) by left.
    by apply Hx.
Qed.

Lemma history_count_none cat history :
  Forall (fun q => triggered cat q = false) history ->
  history_count cat history = 0%nat.
Proof.
  unfold history_count. induction 1 as [|q history Hq _ IH]; [done|].
  rewrite filter_cons_False; [exact IH | congruence].
Qed.

(** X12: a context that has nothing to say keeps the base ranking: with
    no explicit preference, no trigger in the history, a location that
    matches no document, documents tagged any and a time segment other
    than any, the context results are the base results in the same
    order, each with its base score as final score. *)
Theorem neutral_context (lower : str -> str) (self : ContextSearchEngine)
    (query : str) (context : UserContext)
    (Hno : preferences context = ∅)
    (Hhistory : Forall (fun q => forall cat, triggered cat q = false)
                       (query_history context))
    (Hlocation : Forall (fun d => lower (location d)
                                  <> lower (ctx_location context))
                        (documents self))
    (Htag : Forall (fun d => time_tag d = any) (documents self))
    (Hsegment : time_segment context <> any) :
  Forall2 (fun r b => a_doc r = doc b
                      /\ a_base_score r = base_score b
                      /\ (final_score r == base_score b)%Q)
          (search_with_context lower self query context)
          (search lower self query).
Proof.
  assert (Hfinal : forall item,
             item ∈ search lower self query ->
             (final_score (adapt lower context (combined self context) item)
              == base_score item)%Q).
  { intros item (d & Hd & _ & ->)%search_elem.
    pose proof (adapt_final lower context (combined self context)
                            (scored lower query d)) as Hf.
    rewrite Forall_forall in Hlocation, Htag.
    specialize (Hlocation d Hd). specialize (Htag d Hd).
    unfold adapt in Hf at 2 3.
    cbn [context_info matched_location category_weight scored doc
         base_score] in Hf.
    rewrite (bool_decide_eq_false_2 _ Hlocation) in Hf.
    unfold location_factor, time_factor in Hf. rewrite Htag in Hf.
    rewrite decide_False in Hf by congruence.
    rewrite decide_True in Hf by done.
    rewrite combined_without_preferences in Hf by done.
    rewrite build_history_preferences_lookup in Hf.
    cbn [scored base_score]. rewrite Hf.
    case_decide.
    - rewrite history_count_none
        by (eapply Forall_impl; [exact Hhistory|]; intros q Hq; apply Hq).
      cbn [from_option id]. change (history_weight 0) with 1%Q. ring.
    - cbn [from_option id]. ring. }
  rewrite search_with_context_unfold.
  rewrite sort_reverse_sorted.
  - apply Forall2_fmap_l, Forall_Forall2_diag, Forall_forall.
    intros item Hitem. split; [done|]. split; [done|]. by apply Hfinal.
  - apply (descending_map _ base_score); [exact Hfinal|].
    rewrite search_unfold. apply sort_reverse_descending.
Qed.

Lemma neutral_context_witness :
  Forall2 (fun r b => a_doc r = doc b
                      /\ a_base_score r = base_score b
                      /\ (final_score r == base_score b)%Q)
          (search_with_context simple_lower
             {| documents := [tea_doc any; tea_doc any] |} (utf8 "tea green")
             (plain_context morning))
          (search simple_lower {| documents := [tea_doc any; tea_doc any] |}
                  (utf8 "tea green")).
Proof.
  apply (neutral_context simple_lower
           {| documents := [tea_doc any; tea_doc any] |} (utf8 "tea green")
           (plain_context morning)).
  - reflexivity.
  - constructor.
  - repeat constructor; vm_compute; intros H; discriminate H.
  - repeat constructor.
  - vm_compute. intros H. discriminate H.
Defined.

(** ** Document loading *)

Lemma load_step_from docs raw :
  fold_left (fun acc d =>
               try docs <- acc in
               try document <- load_document d in
               ok (docs ++ [document]))
            raw (ok docs)
  = try rest <- load_documents raw in ok (docs ++ rest).
Proof.
  unfold load_documents. revert docs.
  induction raw as [|d raw IH]; intros docs; cbn [fold_left bind ok].
  - by rewrite app_nil_r.
  - destruct (load_document d) as [document|e]; cbn [bind ok].
    + rewrite (IH (docs ++ [document])), (IH ([] ++ [document])).
      destruct (fold_left _ raw (ok [])) as [rest|e']; cbn [bind ok];
        [|done].
      by rewrite <- app_assoc.
    + pose proof (load_documents_raised raw e) as Hraised.
      unfold raise in Hraised. by rewrite !Hraised.
Qed.

(** X13: loading two arrays put end to end is loading the first, then
    the second, and putting the documents end to end; the first error
    met is the error of the whole. *)
Theorem load_documents_concat (raw1 raw2 : list RawRecord) :
  load_documents (raw1 ++ raw2)
  = try docs1 <- load_documents raw1 in
    try docs2 <- load_documents raw2 in
    ok (docs1 ++ docs2).
Proof.
  rewrite load_documents_app.
  destruct (load_documents raw1) as [docs1|e]; cbn [bind].
  - apply load_step_from.
  - apply load_documents_raised.
Qed.

Lemma load_documents_fails good d rest key :
  Forall (fun d => missing_field d = None) good ->
  missing_field d = Some key ->
  load_documents (good ++ d :: rest) = raise (KeyError (utf8 key)).
Proof.
  intros Hgood Hkey.
  destruct (load_documents_complete good Hgood) as (docs & Hdocs & _).
  rewrite load_documents_app, Hdocs. cbn [fold_left bind ok].
  rewrite (load_document_missing d key Hkey). apply load_documents_raised.
Qed.

Lemma first_incomplete (raw : list RawRecord) :
  ~ Forall (fun d => missing_field d = None) raw ->
  exists good d rest key,
    raw = good ++ d :: rest
    /\ Forall (fun d => missing_field d = None) good
    /\ missing_field d = Some key.
Proof.
  induction raw as [|d raw IH]; intros Hnot; [by destruct Hnot|].
  destruct (missing_field d) as [key|] eqn:Hd.
  - exists [], d, raw, key. by repeat split.
  - destruct IH as (good & d' & rest & key & -> & Hgood & Hkey).
    { intros Hall. apply Hnot. by constructor. }
    exists (d :: good), d', rest, key. split; [done|].
    split; [by constructor | done].
Qed.

(** X14: the load succeeds exactly when every record has the five
    required fields, and then it returns one document per record. *)
Theorem load_documents_succeeds_iff (raw : list RawRecord) :
  ((exists docs, load_documents raw = ok docs)
   <-> Forall (fun d => missing_field d = None) raw)
  /\ (forall docs, load_documents raw = ok docs -> length docs = length raw).
Proof.
  assert (Hiff : (exists docs, load_documents raw = ok docs)
                 <-> Forall (fun d => missing_field d = None) raw).
  { split.
    - intros (docs & Hdocs).
      destruct (decide (Forall (fun d => missing_field d = None) raw))
        as [|Hnot]; [done|].
      destruct (first_incomplete raw Hnot)
        as (good & d & rest & key & -> & Hgood & Hkey).
      by rewrite (load_documents_fails good d rest key Hgood Hkey) in Hdocs.
    - intros Hall.
      destruct (load_documents_complete raw Hall) as (docs & Hdocs & _).
      by exists docs. }
  split; [exact Hiff|].
  intros docs Hdocs.
  destruct (load_documents_complete raw) as (docs' & Hdocs' & Heach).
  { apply Hiff. by exists docs. }
  rewrite Hdocs in Hdocs'. injection Hdocs' as <-.
  symmetry. by eapply Forall2_length.
Qed.

(** ** The store *)

(** X15: [add_query] works in place: afterwards the history list of the
    context holds the lowercased query at its end, every other object of
    the store is what it was, and no object has been added. *)
Theorem add_query_in_place (lower : str -> str) (h : heap) (self : loc)
    (c : ContextObject) (history : list str) (query : str)
    (Hself : h !! self = Some (OContext c))
    (Hhistory : h !! query_history_ref c = Some (OHistory history)) :
  exists h',
    add_query_m lower self query h = Some (tt, h')
    /\ h' !! query_history_ref c = Some (OHistory (history ++ [lower query]))
    /\ (forall l, l <> query_history_ref c -> h' !! l = h !! l)
    /\ dom h' = dom h.
Proof.
  eexists. split; [by apply add_query_m_run|].
  split; [apply lookup_insert_eq|].
  split; [intros l Hl; by apply lookup_insert_ne|].
  apply dom_insert_lookup_L. by eexists.
Qed.

Lemma add_query_in_place_witness :
  exists h',
    add_query_m simple_lower 4%nat (utf8 "Tea") demo_store = Some (tt, h')
    /\ h' !! 5%nat = Some (OHistory ([utf8 "кафе хороше"] ++ [utf8 "tea"])).
Proof.
  destruct (add_query_in_place simple_lower demo_store 4%nat
              {| query_history_ref := 5%nat; location_value := utf8 "Kyiv";
                 time_segment_value := any; preferences_ref := 6%nat |}
              [utf8 "кафе хороше"] (utf8 "Tea"))
    as (h' & Hrun & Hhist & _);
    [vm_compute; reflexivity | vm_compute; reflexivity |].
  exists h'. split; [exact Hrun|]. exact Hhist.
Defined.

(** X16: recording the query and then searching, as the request handler
    does, on the store: the search reads the history list that
    [add_query] has just extended, so the results are those of the value
    model on the context with the query recorded; the history list is the
    only object of the caller that has changed. *)
Theorem add_query_then_search (lower : str -> str) (h : heap)
    (self context : loc) (query : str) (documents_ : loc)
    (doc_refs : list loc) (docs : list Document) (c : ContextObject)
    (history : list str) (explicit : gmap str Q)
    (Hself : h !! self = Some (OEngine documents_))
    (Hdocs : h !! documents_ = Some (ODocuments doc_refs))
    (Heach : Forall2 (fun l d => h !! l = Some (ODocument d)) doc_refs docs)
    (Hctx : h !! context = Some (OContext c))
    (Hhist : h !! query_history_ref c = Some (OHistory history))
    (Hprefs : h !! preferences_ref c = Some (OPreferences explicit)) :
  exists out h' items,
    (run _ <- add_query_m lower context query in
     search_with_context_m lower self query context) h = Some (out, h')
    /\ (forall l o, l <> query_history_ref c ->
                    h !! l = Some o -> h' !! l = Some o)
    /\ h' !! query_history_ref c = Some (OHistory (history ++ [lower query]))
    /\ h' !! out = Some (OAdaptedResults items)
    /\ Forall2 (adapted_value h') items
         (search_with_context lower {| documents := docs |} query
            (add_query lower
               {| query_history := history;
                  ctx_location := location_value c;
                  time_segment := time_segment_value c;
                  preferences := explicit |}
               query)).
Proof.
  rewrite (bind_run _ _ _ _ _ (add_query_m_run lower h context c history query
                                               Hctx Hhist)).
  set (h1 := <[query_history_ref c := OHistory (history ++ [lower query])]> h).
  assert (Hkeep : forall l o, l <> query_history_ref c ->
                              h !! l = Some o -> h1 !! l = Some o).
  { intros l o Hl Ho. unfold h1. by rewrite lookup_insert_ne. }
  destruct (search_with_context_m_run lower h1 self context query documents_
              doc_refs docs c (history ++ [lower query]) explicit)
    as (out & h' & items & Hrun & Hsub & Hout & Hvalue).
  - apply Hkeep; [|done]. intros ->. rewrite Hhist in Hself. discriminate.
  - apply Hkeep; [|done]. intros ->. rewrite Hhist in Hdocs. discriminate.
  - eapply Forall2_impl; [exact Heach|]. intros l d Hl.
    apply Hkeep; [|done]. intros ->. rewrite Hhist in Hl. discriminate.
  - apply Hkeep; [|done]. intros ->. rewrite Hhist in Hctx. discriminate.
  - apply lookup_insert_eq.
  - apply Hkeep; [|done]. intros E. rewrite E, Hhist in Hprefs. discriminate.
  - exists out, h', items. split; [exact Hrun|].
    split; [intros l o Hl Ho;
            exact (lookup_weaken _ _ _ _ (Hkeep l o Hl Ho) Hsub)|].
    split; [apply (lookup_weaken h1 h'); [apply lookup_insert_eq | exact Hsub]|].
    split; [exact Hout | exact Hvalue].
Qed.

Lemma add_query_then_search_witness :
  exists out h',
    (run _ <- add_query_m simple_lower 4%nat (utf8 "tea Кафе") in
     search_with_context_m simple_lower 0%nat (utf8 "tea Кафе") 4%nat)
      demo_store = Some (out, h')
    /\ h' !! 5%nat
       = Some (OHistory ([utf8 "кафе хороше"]
                           ++ [simple_lower (utf8 "tea Кафе")])).
Proof.
  destruct (add_query_then_search simple_lower demo_store 0%nat 4%nat
              (utf8 "tea Кафе") 1%nat [2%nat; 3%nat]
              [tea_doc morning; cafe_doc]
              {| query_history_ref := 5%nat; location_value := utf8 "Kyiv";
                 time_segment_value := any; preferences_ref := 6%nat |}
              [utf8 "кафе хороше"] {[ food := 2%Q ]})
    as (out & h' & items & Hrun & _ & Hhist & _);
    [vm_compute; reflexivity
    |vm_compute; reflexivity
    |repeat constructor; vm_compute; reflexivity
    |vm_compute; reflexivity
    |vm_compute; reflexivity
    |vm_compute; reflexivity
    |].
  exists out, h'. exact (conj Hrun Hhist).
Defined.

(** X17: a second call returns a new list with the same results and
    leaves the list of the first call, like every other object, as it
    is. *)
Theorem search_repeatable (lower : str -> str) (h : heap)
    (self context : loc) (query : str) (documents_ : loc)
    (doc_refs : list loc) (docs : list Document) (c : ContextObject)
    (history : list str) (explicit : gmap str Q)
    (Hself : h !! self = Some (OEngine documents_))
    (Hdocs : h !! documents_ = Some (ODocuments doc_refs))
    (Heach : Forall2 (fun l d => h !! l = Some (ODocument d)) doc_refs docs)
    (Hctx : h !! context = Some (OContext c))
    (Hhist : h !! query_history_ref c = Some (OHistory history))
    (Hprefs : h !! preferences_ref c = Some (OPreferences explicit)) :
  let results :=
    search_with_context lower {| documents := docs |} query
      {| query_history := history;
         ctx_location := location_value c;
         time_segment := time_segment_value c;
         preferences := explicit |} in
  exists out1 h1 items1 out2 h2 items2,
    search_with_context_m lower self query context h = Some (out1, h1)
    /\ search_with_context_m lower self query context h1 = Some (out2, h2)
    /\ out1 <> out2
    /\ h1 !! out1 = Some (OAdaptedResults items1)
    /\ h2 !! out1 = Some (OAdaptedResults items1)
    /\ h2 !! out2 = Some (OAdaptedResults items2)
    /\ (forall l o, h !! l = Some o -> h2 !! l = Some o)
    /\ Forall2 (adapted_value h2) items1 results
    /\ Forall2 (adapted_value h2) items2 results.
Proof.
  destruct (search_with_context_m_run lower h self context query documents_
              doc_refs docs c history explicit
              Hself Hdocs Heach Hctx Hhist Hprefs)
    as (out1 & h1 & items1 & Hrun1 & Hsub1 & Hout1 & Hvalue1).
  destruct (search_with_context_m_run_fresh lower h1 self context query
              documents_ doc_refs docs c history explicit)
    as (out2 & h2 & items2 & Hrun2 & Hnew2 & Hsub2 & Hout2 & Hvalue2).
  - exact (lookup_weaken _ _ _ _ Hself Hsub1).
  - exact (lookup_weaken _ _ _ _ Hdocs Hsub1).
  - eapply Forall2_impl; [exact Heach|]. intros l d Hl.
    exact (lookup_weaken _ _ _ _ Hl Hsub1).
  - exact (lookup_weaken _ _ _ _ Hctx Hsub1).
  - exact (lookup_weaken _ _ _ _ Hhist Hsub1).
  - exact (lookup_weaken _ _ _ _ Hprefs Hsub1).
  - intros results. exists out1, h1, items1, out2, h2, items2.
    split; [exact Hrun1|]. split; [exact Hrun2|].
    split; [intros ->; rewrite Hout1 in Hnew2; discriminate|].
    split; [exact Hout1|].
    split; [exact (lookup_weaken _ _ _ _ Hout1 Hsub2)|].
    split; [exact Hout2|].
    split; [intros l o Hl;
            exact (lookup_weaken _ _ _ _ (lookup_weaken _ _ _ _ Hl Hsub1) Hsub2)|].
    split; [|exact Hvalue2].
    eapply Forall2_impl; [exact Hvalue1|].
    intros ? ?. by apply adapted_value_weaken.
Qed.

Lemma search_repeatable_witness :
  exists out1 h1 out2 h2,
    search_with_context_m simple_lower 0%nat (utf8 "tea") 4%nat demo_store
    = Some (out1, h1)
    /\ search_with_context_m simple_lower 0%nat (utf8 "tea") 4%nat h1
       = Some (out2, h2).
Proof.
  destruct (search_repeatable simple_lower demo_store 0%nat 4%nat
              (utf8 "tea") 1%nat [2%nat; 3%nat]
              [tea_doc morning; cafe_doc]
              {| query_history_ref := 5%nat; location_value := utf8 "Kyiv";
                 time_segment_value := any; preferences_ref := 6%nat |}
              [utf8 "кафе хороше"] {[ food := 2%Q ]})
    as (out1 & h1 & items1 & out2 & h2 & items2 & Hrun1 & Hrun2 & _);
    [vm_compute; reflexivity
    |vm_compute; reflexivity
    |repeat constructor; vm_compute; reflexivity
    |vm_compute; reflexivity
    |vm_compute; reflexivity
    |vm_compute; reflexivity
    |].
  exists out1, h1, out2, h2. exact (conj Hrun1 Hrun2).
Defined.

(** ** The application *)

Section AppProofs.

Variable lower : str -> str.
Variable strip : str -> str.

Lemma index_other engine user_context request :
  method request <> utf8 "POST" ->
  index lower strip engine user_context request
  = (user_context, page_of user_context [] [] []).
Proof. intros Hm. unfold index. by rewrite decide_False. Qed.

Lemma updated_context_eq user_context request :
  (let location_ := strip (default [] (form request !! utf8 "location")) in
   let time_segment_ :=
     strip (default [] (form request !! utf8 "time_segment")) in
   let user_context :=
     if truthy location_
     then {| query_history := query_history user_context;
             ctx_location := location_;
             time_segment := time_segment user_context;
             preferences := preferences user_context |}
     else user_context in
   if decide (time_segment_ ∈ [morning; evening; any])
   then {| query_history := query_history user_context;
           ctx_location := ctx_location user_context;
           time_segment := time_segment_;
           preferences := preferences user_context |}
   else user_context)
  = updated_context strip user_context request.
Proof.
  unfold updated_context. cbv zeta.
  destruct (truthy _); case_decide; by destruct user_context.
Qed.

Lemma index_post engine user_context request :
  method request = utf8 "POST" ->
  let query := strip (default [] (form request !! utf8 "query")) in
  let updated := updated_context strip user_context request in
  index lower strip engine user_context request
  = if truthy query
    then (add_query lower updated query,
          page_of (add_query lower updated query) query
                  (search lower engine query)
                  (search_with_context lower engine query
                     (add_query lower updated query)))
    else (updated, page_of updated query [] []).
Proof.
  intros Hm query updated. unfold index. rewrite decide_True by done.
  cbv zeta. rewrite updated_context_eq. fold query updated.
  by destruct (truthy query).
Qed.

Lemma index_step engine user_context request :
  let user_context' := (index lower strip engine user_context request).1 in
  let page := (index lower strip engine user_context request).2 in
  preferences user_context' = preferences user_context
  /\ (time_segment user_context' = time_segment user_context
      \/ time_segment user_context' ∈ [morning; evening; any])
  /\ (ctx_location user_context' = ctx_location user_context
      \/ ctx_location user_context' <> [])
  /\ (query_history user_context' = query_history user_context
      \/ (method request = utf8 "POST"
          /\ page_query page <> []
          /\ query_history user_context'
             = query_history user_context ++ [lower (page_query page)]))
  /\ (method request <> utf8 "POST" ->
      user_context' = user_context
      /\ page_query page = []
      /\ page_basic_results page = []
      /\ page_context_results page = []).
Proof.
  destruct (decide (method request = utf8 "POST")) as [Hm|Hm].
  - rewrite (index_post engine user_context request Hm). cbv zeta.
    set (query := strip _).
    assert (Hupdated :
              (time_segment (updated_context strip user_context request)
               = time_segment user_context
               \/ time_segment (updated_context strip user_context request)
                  ∈ [morning; evening; any])
              /\ (ctx_location (updated_context strip user_context request)
                  = ctx_location user_context
                  \/ ctx_location (updated_context strip user_context request)
                     <> [])).
    { unfold updated_context. cbn [time_segment ctx_location]. split.
      - case_decide; [by right | by left].
      - destruct (truthy _) eqn:E; [right | by left].
        intros Hnil. by rewrite Hnil in E. }
    destruct Hupdated as [Htime Hloc].
    destruct (truthy query) eqn:Hq; cbn [fst snd].
    + split; [done|]. split; [exact Htime|]. split; [exact Hloc|].
      split; [|done]. right. split; [done|]. split; [|done].
      cbn [page_of page_query]. intros Hnil. by rewrite Hnil in Hq.
    + split; [done|]. split; [exact Htime|]. split; [exact Hloc|].
      split; [by left | done].
  - rewrite (index_other engine user_context request Hm). cbn [fst snd].
    split; [done|]. split; [by left|]. split; [by left|].
    split; [by left | done].
Qed.

(** X18: what a request can do to the module-level context: it never
    touches the explicit preferences; the time segment stays or becomes
    one of morning, evening, any; the location stays or becomes a
    non-empty string; the history stays or, on a POST with a non-empty
    query, gets the lowercased query at its end.  A request that is not
    a POST changes nothing and shows no result. *)
Theorem index_context_update (engine : ContextSearchEngine)
    (user_context : UserContext) (request : Request) :
  let user_context' := (index lower strip engine user_context request).1 in
  let page := (index lower strip engine user_context request).2 in
  preferences user_context' = preferences user_context
  /\ (time_segment user_context' = time_segment user_context
      \/ time_segment user_context' ∈ [morning; evening; any])
  /\ (ctx_location user_context' = ctx_location user_context
      \/ ctx_location user_context' <> [])
  /\ (query_history user_context' = query_history user_context
      \/ (method request = utf8 "POST"
          /\ page_query page <> []
          /\ query_history user_context'
             = query_history user_context ++ [lower (page_query page)]))
  /\ (method request <> utf8 "POST" ->
      user_context' = user_context
      /\ page_query page = []
      /\ page_basic_results page = []
      /\ page_context_results page = []).
Proof. apply index_step. Qed.

Lemma index_app_context engine user_context request :
  app_context user_context ->
  app_context (index lower strip engine user_context request).1.
Proof.
  intros (Htime & Hloc & Hprefs).
  destruct (index_step engine user_context request)
    as (Hp & Ht & Hl & _).
  split; [|split].
  - destruct Ht as [->|Ht]; done.
  - destruct Hl as [->|Hl]; done.
  - by rewrite Hp.
Qed.

Lemma serve_app_context engine user_context requests :
  app_context user_context ->
  app_context (serve lower strip engine user_context requests)
  /\ (length (query_history (serve lower strip engine user_context requests))
      <= length (query_history user_context)
         + length (filter (fun request => method request = utf8 "POST")
                          requests))%nat.
Proof.
  revert user_context.
  induction requests as [|request requests IH]; intros user_context Hctx;
    cbn [serve fold_left].
  - split; [done|]. rewrite filter_nil. cbn [length]. lia.
  - fold (serve lower strip engine
                (index lower strip engine user_context request).1 requests).
    destruct (IH _ (index_app_context engine user_context request Hctx))
      as [Hinv Hlen].
    split; [exact Hinv|].
    destruct (index_step engine user_context request)
      as (_ & _ & _ & Hh & _).
    rewrite filter_cons.
    destruct Hh as [Hh|(Hm & _ & Hh)]; rewrite Hh in Hlen.
    + case_decide; cbn [length]; lia.
    + rewrite decide_True by done. rewrite length_app in Hlen.
      cbn [length] in *. lia.
Qed.

Lemma initial_app_context : app_context initial_user_context.
Proof.
  split; [|split; [|done]].
  - apply (bool_decide_unpack _). vm_compute. exact I.
  - vm_compute. intros H. discriminate H.
Qed.

(** X19: whatever requests have been served since the start, the
    module-level context has a time segment that is morning, evening or
    any, a location that is not empty and no explicit preference, and
    its history holds at most one query per POST request. *)
Theorem served_context_valid (engine : ContextSearchEngine)
    (requests : list Request) :
  let user_context :=
    serve lower strip engine initial_user_context requests in
  time_segment user_context ∈ [morning; evening; any]
  /\ ctx_location user_context <> []
  /\ preferences user_context = ∅
  /\ (length (query_history user_context)
      <= length (filter (fun request => method request = utf8 "POST")
                        requests))%nat.
Proof.
  destruct (serve_app_context engine initial_user_context requests
                              initial_app_context)
    as ((Htime & Hloc & Hprefs) & Hlen).
  by repeat split.
Qed.

Lemma last_ten_facts {A} (l : list A) :
  last_ten l `suffix_of` l
  /\ (length (last_ten l) <= 10)%nat
  /\ ((length l <= 10)%nat -> last_ten l = l).
Proof.
  unfold last_ten. split; [apply suffix_drop|].
  split; [rewrite length_drop; lia|].
  intros Hl. by replace (length l - 10)%nat with 0%nat by lia.
Qed.

Lemma last_ten_snoc {A} (l : list A) x : last (last_ten (l ++ [x])) = Some x.
Proof.
  unfold last_ten. rewrite length_app. cbn [length].
  rewrite drop_app_le by lia. apply last_snoc.
Qed.

Lemma index_page engine user_context request :
  exists query basic_results context_results,
    (index lower strip engine user_context request).2
    = page_of (index lower strip engine user_context request).1
              query basic_results context_results.
Proof.
  destruct (decide (method request = utf8 "POST")) as [Hm|Hm].
  - rewrite (index_post engine user_context request Hm). cbv zeta.
    destruct (truthy _); cbn [fst snd]; by eexists _, _, _.
  - rewrite (index_other engine user_context request Hm). cbn [fst snd].
    by eexists _, _, _.
Qed.

(** X20: the page shows the location and the time segment of the
    context as the request leaves it, and of its history exactly the
    last ten entries in their order, all of them while there are at most
    ten.  A POST request whose query is not empty once stripped puts that
    query, lowercased, at the end of the history, where it is the last
    entry shown; any other request leaves the history as it was. *)
Theorem shown_context (engine : ContextSearchEngine)
    (user_context : UserContext) (request : Request) :
  let user_context' := (index lower strip engine user_context request).1 in
  let page := (index lower strip engine user_context request).2 in
  let shown := shown_query_history (page_context_info page) in
  let history := query_history user_context' in
  let query := strip (default [] (form request !! utf8 "query")) in
  shown_location (page_context_info page) = ctx_location user_context'
  /\ shown_time_segment (page_context_info page) = time_segment user_context'
  /\ shown = drop (length history - 10) history
  /\ length shown = Nat.min 10 (length history)
  /\ shown `suffix_of` history
  /\ ((length history <= 10)%nat -> shown = history)
  /\ (method request = utf8 "POST" -> query <> [] ->
      history = query_history user_context ++ [lower query]
      /\ last shown = Some (lower query))
  /\ (method request <> utf8 "POST" \/ query = [] ->
      history = query_history user_context).
Proof.
  cbv zeta.
  destruct (index_page engine user_context request) as (q & b & c & Hpage).
  rewrite Hpage.
  cbn [page_of page_context_info shown_location shown_time_segment
       shown_query_history].
  destruct (last_ten_facts
              (query_history (index lower strip engine user_context request).1))
    as (Hsuffix & Hlen & Hall).
  split; [done|]. split; [done|]. split; [done|].
  split; [unfold last_ten; rewrite length_drop; lia|].
  split; [exact Hsuffix|]. split; [exact Hall|].
  clear Hpage Hsuffix Hlen Hall. split.
  - intros Hm Hq. rewrite (index_post engine user_context request Hm).
    cbv zeta. destruct (strip _) as [|ch query] eqn:E; [done|].
    cbn [truthy fst snd add_query query_history updated_context].
    split; [done | apply last_ten_snoc].
  - intros [Hm|Hq].
    + by rewrite (index_other engine user_context request Hm).
    + destruct (decide (method request = utf8 "POST")) as [Hm|Hm].
      * rewrite (index_post engine user_context request Hm). cbv zeta.
        by rewrite Hq.
      * by rewrite (index_other engine user_context request Hm).
Qed.

Lemma index_results engine user_context request :
  let user_context' := (index lower strip engine user_context request).1 in
  let page := (index lower strip engine user_context request).2 in
  (page_basic_results page = [] /\ page_context_results page = [])
  \/ (page_query page <> []
      /\ preferences user_context' = preferences user_context
      /\ (exists history, query_history user_context'
                          = history ++ [lower (page_query page)])
      /\ page_basic_results page = search lower engine (page_query page)
      /\ page_context_results page
         = search_with_context lower engine (page_query page) user_context').
Proof.
  destruct (decide (method request = utf8 "POST")) as [Hm|Hm].
  - rewrite (index_post engine user_context request Hm). cbv zeta.
    destruct (truthy (strip _)) eqn:E; cbn [fst snd]; [right | by left].
    cbn [page_of page_query page_basic_results page_context_results].
    split; [intros Hnil; by rewrite Hnil in E|].
    split; [done|]. split; [by eexists | done].
  - rewrite (index_other engine user_context request Hm). by left.
Qed.

Lemma float_index_post engine (user_context : Binary64.UserContext) request :
  let user_context' :=
    (Binary64.index lower strip engine user_context request).1 in
  let page := (Binary64.index lower strip engine user_context request).2 in
  let query := strip (default [] (form request !! utf8 "query")) in
  method request = utf8 "POST" -> query <> [] ->
  Binary64.page_query page = query
  /\ Binary64.query_history user_context'
     = Binary64.query_history user_context ++ [lower query]
  /\ Binary64.preferences user_context' = Binary64.preferences user_context
  /\ Binary64.page_basic_results page = Binary64.search lower engine query
  /\ Binary64.page_context_results page
     = Binary64.search_with_context lower engine query user_context'.
Proof.
  cbv zeta. intros Hm Hq. unfold Binary64.index.
  rewrite decide_True by done. cbv zeta.
  destruct (strip (default [] (form request !! utf8 "query")))
    as [|ch query] eqn:E; [done|].
  cbn [truthy fst snd Binary64.page_query Binary64.page_basic_results
       Binary64.page_context_results].
  split; [done|].
  split; [|split; [|done]].
  - destruct (truthy _); case_decide; reflexivity.
  - destruct (truthy _); case_decide; reflexivity.
Qed.

Lemma float_index_other engine (user_context : Binary64.UserContext) request :
  let user_context' :=
    (Binary64.index lower strip engine user_context request).1 in
  let page := (Binary64.index lower strip engine user_context request).2 in
  let query := strip (default [] (form request !! utf8 "query")) in
  method request <> utf8 "POST" \/ query = [] ->
  Binary64.query_history user_context' = Binary64.query_history user_context
  /\ Binary64.page_basic_results page = []
  /\ Binary64.page_context_results page = [].
Proof.
  cbv zeta. intros Hcase. unfold Binary64.index.
  destruct (decide (method request = utf8 "POST")) as [Hm|Hm].
  - destruct Hcase as [Hcase|Hq]; [done|]. cbv zeta. rewrite Hq.
    cbn [truthy fst snd Binary64.page_basic_results
         Binary64.page_context_results].
    split; [|done]. destruct (truthy _); case_decide; reflexivity.
  - done.
Qed.

(** X21: the results of a page are the results for the context shown
    on it.  A POST request whose query is not empty once stripped shows
    that query; it records the query first and searches after, so its
    basic results are those of [search] for the query and its context
    results those of [search_with_context] for the query on the context
    the request leaves, the updated context with the query at the end of
    its history.  Any other request shows no result.  The context
    results hold the documents and base scores of the basic results of
    the page, and the time segment they record is the one shown.  The
    handler on the binary64 engines shows the results of those engines
    in the same way. *)
Theorem shown_results (engine : ContextSearchEngine)
    (user_context : UserContext) (user_context64 : Binary64.UserContext)
    (request : Request) :
  let user_context' := (index lower strip engine user_context request).1 in
  let page := (index lower strip engine user_context request).2 in
  let user_context64' :=
    (Binary64.index lower strip engine user_context64 request).1 in
  let page64 :=
    (Binary64.index lower strip engine user_context64 request).2 in
  let query := strip (default [] (form request !! utf8 "query")) in
  (method request = utf8 "POST" -> query <> [] ->
   page_query page = query
   /\ user_context'
      = add_query lower (updated_context strip user_context request) query
   /\ query_history user_context'
      = query_history user_context ++ [lower query]
   /\ page_basic_results page = search lower engine query
   /\ page_context_results page
      = search_with_context lower engine query user_context')
  /\ (method request <> utf8 "POST" \/ query = [] ->
      page_basic_results page = [] /\ page_context_results page = [])
  /\ (page_query page = [] ->
      page_basic_results page = [] /\ page_context_results page = [])
  /\ map (fun r => (a_doc r, a_base_score r)) (page_context_results page)
     ≡ₚ map (fun r => (doc r, base_score r)) (page_basic_results page)
  /\ Forall (fun r => info_time_segment (context_info r)
                      = shown_time_segment (page_context_info page))
            (page_context_results page)
  /\ (method request = utf8 "POST" -> query <> [] ->
      Binary64.page_query page64 = query
      /\ Binary64.query_history user_context64'
         = Binary64.query_history user_context64 ++ [lower query]
      /\ Binary64.page_basic_results page64
         = Binary64.search lower engine query
      /\ Binary64.page_context_results page64
         = Binary64.search_with_context lower engine query user_context64')
  /\ (method request <> utf8 "POST" \/ query = [] ->
      Binary64.page_basic_results page64 = []
      /\ Binary64.page_context_results page64 = []).
Proof.
  cbv zeta. split; [|split].
  - intros Hm Hq. rewrite (index_post engine user_context request Hm).
    cbv zeta. destruct (strip _) as [|ch query] eqn:E; [done|].
    cbn [truthy fst snd page_of page_query page_basic_results
         page_context_results].
    by repeat split.
  - intros [Hm|Hq].
    + by rewrite (index_other engine user_context request Hm).
    + destruct (decide (method request = utf8 "POST")) as [Hm|Hm].
      * rewrite (index_post engine user_context request Hm). cbv zeta.
        by rewrite Hq.
      * by rewrite (index_other engine user_context request Hm).
  - split; [|split; [|split; [|split]]].
    + destruct (index_results engine user_context request)
        as [[Hb Hc]|(Hq & _)]; done.
    + destruct (index_results engine user_context request)
        as [[Hb Hc]|(Hq & _ & _ & Hb & Hc)]; rewrite Hb, Hc; [done|].
      rewrite search_with_context_unfold, sort_reverse_perm.
      by rewrite map_map.
    + destruct (index_page engine user_context request)
        as (q & b & c & Hpage).
      destruct (index_results engine user_context request)
        as [[Hb Hc]|(Hq & _ & _ & Hb & Hc)]; rewrite Hc; [constructor|].
      rewrite Hpage. cbn [page_of page_context_info shown_time_segment].
      apply Forall_forall.
      intros r (item & _ & ->)%search_with_context_elem. done.
    + intros Hm Hq.
      destruct (float_index_post engine user_context64 request Hm Hq)
        as (H1 & H2 & _ & H3 & H4).
      done.
    + intros Hcase.
      destruct (float_index_other engine user_context64 request Hcase)
        as (_ & H1 & H2).
      done.
Qed.

(** X22: a query holding a trigger of a category counts at once: on a
    context without explicit preferences, every context result of the
    request whose document is in that category has a category weight of
    at least 1.5. *)
Theorem first_query_boost (engine : ContextSearchEngine)
    (user_context : UserContext) (request : Request) (cat : str)
    (Hno : preferences user_context = ∅)
    (Hcat : cat ∈ [food; news; education; sport])
    (Htrigger : triggered cat
                  (lower (page_query
                            (index lower strip engine user_context request).2))
                = true) :
  Forall (fun r => category (a_doc r) = cat ->
                   (1.5 <= category_weight (context_info r))%Q)
         (page_context_results
            (index lower strip engine user_context request).2).
Proof.
  destruct (index_results engine user_context request)
    as [[_ Hc]|(_ & Hp & (history & Hh) & _ & Hc)];
    rewrite Hc; [constructor|].
  set (user_context' := (index lower strip engine user_context request).1) in *.
  apply Forall_forall. intros r (item & _ & ->)%search_with_context_elem.
  unfold adapt. cbn [a_doc context_info category_weight]. intros Hitem.
  rewrite combined_without_preferences by (by rewrite Hp).
  rewrite build_history_preferences_lookup, Hitem, decide_True by done.
  cbn [from_option id]. rewrite history_weight_linear.
  unfold history_count. rewrite Hh, filter_app, filter_cons, filter_nil.
  rewrite decide_True by done. rewrite length_app. cbn [length].
  rewrite Nat2Z.inj_add, inject_Z_plus.
  assert (H0 : (0 <= inject_Z (Z.of_nat
                     (length (filter (fun q => triggered cat q = true)
                                     history))))%Q)
    by (change 0%Q with (inject_Z 0); rewrite <- Zle_Qle; lia).
  change (inject_Z (Z.of_nat 1)) with 1%Q. lra.
Qed.


(** X24: a request whose query is empty once stripped, or that has no
    query field, records nothing and shows no result; its location and
    time segment are still taken. *)
Theorem empty_query_ignored (engine : ContextSearchEngine)
    (user_context : UserContext) (request : Request)
    (Hempty : strip (default [] (form request !! utf8 "query")) = []) :
  let user_context' := (index lower strip engine user_context request).1 in
  let page := (index lower strip engine user_context request).2 in
  query_history user_context' = query_history user_context
  /\ page_query page = []
  /\ page_basic_results page = []
  /\ page_context_results page = []
  /\ (method request = utf8 "POST" ->
      user_context' = updated_context strip user_context request).
Proof.
  cbv zeta. destruct (decide (method request = utf8 "POST")) as [Hm|Hm].
  - rewrite (index_post engine user_context request Hm). cbv zeta.
    rewrite Hempty. cbn [truthy fst snd]. by repeat split.
  - rewrite (index_other engine user_context request Hm). cbn [fst snd].
    by repeat split.
Qed.

End AppProofs.

Lemma first_query_boost_witness :
  Forall (fun r => category (a_doc r) = food ->
                   (1.5 <= category_weight (context_info r))%Q)
         (page_context_results
            (index simple_lower simple_strip {| documents := [cafe_doc] |}
                   initial_user_context (query_request " Кафе ")).2).
Proof.
  apply (first_query_boost simple_lower simple_strip
           {| documents := [cafe_doc] |} initial_user_context
           (query_request " Кафе ") food).
  - reflexivity.
  - left.
  - vm_compute. reflexivity.
Defined.

Lemma empty_query_ignored_witness :
  query_history
    (index simple_lower simple_strip {| documents := [cafe_doc] |}
           initial_user_context (query_request "   ")).1
  = query_history initial_user_context.
Proof.
  apply (empty_query_ignored simple_lower simple_strip
           {| documents := [cafe_doc] |} initial_user_context
           (query_request "   ")).
  vm_compute. reflexivity.
Defined.

(** A first request for a café on the initial context: the query is
    stripped and recorded in lowercase, and the one document is found
    with the food weight 1.5 of that very query. *)
Example first_request :
  exists user_context page r,
    index simple_lower simple_strip {| documents := [cafe_doc] |}
          initial_user_context (query_request " Кафе ")
    = (user_context, page)
    /\ query_history user_context = [utf8 "кафе"]
    /\ page_query page = utf8 "Кафе"
    /\ page_context_results page = [r]
    /\ category_weight (context_info r) = 1.5%Q.
Proof.
  eexists _, _, _. split; [vm_compute; reflexivity|].
  split; [vm_compute; reflexivity|]. split; [vm_compute; reflexivity|].
  split; vm_compute; reflexivity.
Qed.
